(** * City Scoring API: a shallow embedding of [city_api.py]

    The module keeps two global dictionaries, [CITIES_DATA] and [COUNTRIES],
    filled once by [load_cities_data] and read by four Flask handlers.

    Modelling choices, all visible in the definitions below:
    - a Python [dict] is an association list in insertion order with unique
      keys; assigning an existing key replaces the value where it stands;
    - the globals are threaded through a state-and-exception monad [M]: an
      exception leaves the globals as they were when it was raised;
    - the data file is taken in its documented shape (names are strings,
      indices are numbers), but any key of an object may be absent, which is
      a [KeyError] where the code indexes it; the body of a score request
      is an object whose [city_name] and [country] are strings or absent;
    - a JSON number is a Python [int] (unbounded) or a [float] (binary64,
      with its infinities and NaN): products and sums are those of binary64,
      an [int] too large for a [float] is an [OverflowError], comparisons
      are by value, and [round(x, 1)] takes the exact value of the float to
      the nearest tenth, ties to even, and then to the nearest float;
    - [float] and [int] on a query-string parameter are parameters of
      [list_cities] ([parse_float], [parse_int]); [None] is their
      [ValueError];
    - [list.sort] is a stable insertion into non-increasing keys; on keys
      that [<] does not order, a NaN among them, it is a parameter of
      [list_cities] ([sort_unordered]);
    - [str.lower] is a parameter of the handlers ([lower]), so the results
      hold for Python's own; the examples run with [ascii_lower]; [in] on
      strings is substring search ([contains]);
    - [print] calls, CORS and routing are left out. *)

From Stdlib Require Import List String Ascii Bool ZArith QArith Qround.
From Stdlib Require Import Lia Permutation Sorted.
From Stdlib Require Import PrimFloat SpecFloat FloatOps FloatAxioms.
Import ListNotations.

Local Open Scope string_scope.
Local Open Scope Q_scope.
#[local] Set Warnings "-inexact-float".

(** ** Strings *)

(** [sub in s] for Python strings. *)
Fixpoint contains (sub s : string) : bool :=
  if String.prefix sub s then true
  else match s with
       | EmptyString => false
       | String _ s' => contains sub s'
       end.

(** A string is falsy exactly when it is empty. *)
Definition truthy (s : string) : bool := negb (String.eqb s "").

(** ASCII lower-casing, the instance of [str.lower] used to run the model. *)
Definition lower_ascii (c : ascii) : ascii :=
  let n := nat_of_ascii c in
  if (Nat.leb 65 n && Nat.leb n 90)%bool then ascii_of_nat (n + 32) else c.

Fixpoint ascii_lower (s : string) : string :=
  match s with
  | EmptyString => EmptyString
  | String c s' => String (lower_ascii c) (ascii_lower s')
  end.

(** ** Dictionaries *)

Module Dict.
Section Dict.
Context {V : Type}.

Definition t := list (string * V).

Fixpoint get (k : string) (d : t) : option V :=
  match d with
  | [] => None
  | (k', v) :: d' => if String.eqb k k' then Some v else get k d'
  end.

(** [d[k] = v]: replace in place, or append a new key at the end. *)
Fixpoint set (k : string) (v : V) (d : t) : t :=
  match d with
  | [] => [(k, v)]
  | (k', v') :: d' =>
      if String.eqb k k' then (k, v) :: d' else (k', v') :: set k v d'
  end.

(** [d.update(kvs)]: the assignments [d[k] = v] in order. *)
Definition update (kvs : list (string * V)) (d : t) : t :=
  fold_left (fun d' kv => set (fst kv) (snd kv) d') kvs d.

Definition keys (d : t) : list string := map fst d.

Definition is_empty (d : t) : bool :=
  match d with [] => true | _ => false end.
End Dict.
Arguments t : clear implicits.
End Dict.

(** ** Numbers *)

(** [x < y] on rationals. *)
Definition Qltb (x y : Q) : bool :=
  match Qcompare x y with Lt => true | _ => false end.

(** Nearest integer, ties to the even one. *)
Definition round_half_even (x : Q) : Z :=
  let f := Qfloor x in
  match Qcompare (x - inject_Z f) (1 # 2) with
  | Lt => f
  | Gt => (f + 1)%Z
  | Eq => if Z.even f then f else (f + 1)%Z
  end.

(** A number of the data file as [json.load] gives it: a Python [int], or a
    [float] for a literal with a fraction or an exponent (and for [NaN] and
    [Infinity], which [json.load] accepts). *)
Inductive number :=
| NInt (n : Z)
| NFloat (f : float).

(** The value of a number: a rational, an infinity, or no number. *)
Inductive extended :=
| NaN
| MinusInf
| Finite (q : Q)
| PlusInf.

Definition exact_float (f : float) : extended :=
  match Prim2SF f with
  | S754_zero _ => Finite 0
  | S754_infinity s => if s then MinusInf else PlusInf
  | S754_nan => NaN
  | S754_finite s m e =>
      let q := if (0 <=? e)%Z then inject_Z (Zpos m * 2 ^ e)
               else Zpos m # Pos.shiftl 1 (Z.to_N (- e)) in
      Finite (if s then - q else q)
  end.

Definition exact (x : number) : extended :=
  match x with
  | NInt n => Finite (inject_Z n)
  | NFloat f => exact_float f
  end.

(** [a < b] and [a <= b] by value; with a NaN on either side both are
    false. *)
Definition ext_ltb (a b : extended) : bool :=
  match a, b with
  | NaN, _ => false
  | _, NaN => false
  | MinusInf, MinusInf => false
  | MinusInf, _ => true
  | Finite _, MinusInf => false
  | Finite x, Finite y => Qltb x y
  | Finite _, PlusInf => true
  | PlusInf, _ => false
  end.

Definition ext_leb (a b : extended) : bool :=
  match a, b with
  | NaN, _ => false
  | _, NaN => false
  | MinusInf, _ => true
  | Finite _, MinusInf => false
  | Finite x, Finite y => Qle_bool x y
  | Finite _, PlusInf => true
  | PlusInf, PlusInf => true
  | PlusInf, _ => false
  end.

(** [x < y] and [x <= y] on Python numbers: an [int] and a [float] are
    compared by value, without converting the [int]. *)
Definition num_ltb (x y : number) : bool := ext_ltb (exact x) (exact y).

Definition num_leb (x y : number) : bool := ext_leb (exact x) (exact y).

Definition is_nan (x : number) : bool :=
  match exact x with NaN => true | _ => false end.

(** [float(n)] on an [int]: the nearest float, ties to even; [None] is the
    [OverflowError] of an [int] that rounds beyond the largest float. *)
Definition float_of_Z (n : Z) : option float :=
  match binary_normalize prec emax n 0 false with
  | S754_infinity _ => None
  | sf => Some (SF2Prim sf)
  end.

(** The float an operand of [*] with a float is converted to. *)
Definition as_float (x : number) : option float :=
  match x with
  | NInt n => float_of_Z n
  | NFloat f => Some f
  end.

(** [100 - x]: exact on an [int], in binary64 on a [float]. *)
Definition hundred_minus (x : number) : number :=
  match x with
  | NInt n => NInt (100 - n)
  | NFloat f => NFloat (100 - f)%float
  end.

(** [round(f, 1)] on a float: a float that is an integer, an infinity or a
    NaN is returned as it is; otherwise the exact value is taken to the
    nearest tenth, ties to even, and the float nearest to that decimal is
    returned, with the sign of [f]. *)
Definition round1_float (f : float) : float :=
  match Prim2SF f with
  | S754_finite s m e =>
      if (0 <=? e)%Z then f
      else
        let tenths :=
          round_half_even (Zpos (m * 10) # Pos.shiftl 1 (Z.to_N (- e))) in
        SF2Prim
          (SFdiv prec emax
             match tenths with
             | Zpos p => S754_finite s p 0
             | _ => S754_zero s
             end
             (S754_finite false 10 0))
  | _ => f
  end.

(** [round(x, 1)]: an [int] is returned as it is. *)
Definition round1 (x : number) : number :=
  match x with
  | NInt n => NInt n
  | NFloat f => NFloat (round1_float f)
  end.

(** ** Data *)

(** One city object of the data file. A ["country"] key inside it takes
    precedence over the group's in the stored record ([**city_data]). *)
Record city_json := {
  cd_city : option string;
  cd_country : option string;
  cd_index : Dict.t number
}.

(** One country group of the data file. *)
Record country_json := {
  cj_country : option string;
  cj_cities : option (list city_json)
}.

(** What [open] and [json.load] give for the data file. *)
Inductive source :=
| NoFile
| BadJSON
| Parsed (countries_list : list country_json).

(** A value of [CITIES_DATA]:
    [{"city": city_name, "country": country, **city_data}]. *)
Record city_record := {
  city_of : string;
  country_of : string;
  index_of : Dict.t number
}.

Record globals := {
  CITIES_DATA : Dict.t city_record;
  COUNTRIES : Dict.t (list string)
}.

Definition initial : globals := {| CITIES_DATA := []; COUNTRIES := [] |}.

(** ** The monad of the module's code *)

Inductive exn :=
| FileNotFoundError
| JSONDecodeError
| KeyError (key : string)
| OverflowError
| ValueError.

Inductive outcome (A : Type) :=
| Return (a : A)
| Raise (e : exn).
Arguments Return {A} a.
Arguments Raise {A} e.

Definition M (A : Type) : Type := globals -> outcome A * globals.

Definition ret {A} (a : A) : M A := fun g => (Return a, g).

Definition raise {A} (e : exn) : M A := fun g => (Raise e, g).

Definition bind {A B} (m : M A) (k : A -> M B) : M B :=
  fun g => match m g with
           | (Return a, g') => k a g'
           | (Raise e, g') => (Raise e, g')
           end.

(** [try: m  except Exception as e: h e]. *)
Definition try_except {A} (m : M A) (h : exn -> M A) : M A :=
  fun g => match m g with
           | (Return a, g') => (Return a, g')
           | (Raise e, g') => h e g'
           end.

Notation "x <- m ;; k" := (bind m (fun x => k))
  (at level 61, m at next level, right associativity).
Notation "m ;; k" := (bind m (fun _ => k))
  (at level 61, right associativity).

Definition read {A} (f : globals -> A) : M A := fun g => (Return (f g), g).

Definition set_CITIES_DATA (k : string) (v : city_record) : M unit :=
  fun g => (Return tt,
            {| CITIES_DATA := Dict.set k v (CITIES_DATA g);
               COUNTRIES := COUNTRIES g |}).

Definition set_COUNTRIES (k : string) (v : list string) : M unit :=
  fun g => (Return tt,
            {| CITIES_DATA := CITIES_DATA g;
               COUNTRIES := Dict.set k v (COUNTRIES g) |}).

(** [d[k]] on a dictionary. *)
Definition getitem {V} (d : Dict.t V) (k : string) : M V :=
  match Dict.get k d with
  | Some v => ret v
  | None => raise (KeyError k)
  end.

(** [obj[k]] on an object of the data file whose key [k] may be absent. *)
Definition field {A} (k : string) (o : option A) : M A :=
  match o with
  | Some a => ret a
  | None => raise (KeyError k)
  end.

Fixpoint for_each {A} (l : list A) (body : A -> M unit) : M unit :=
  match l with
  | [] => ret tt
  | x :: l' => body x ;; for_each l' body
  end.

(** ** [load_cities_data] *)

Definition json_load (src : source) : M (list country_json) :=
  match src with
  | NoFile => raise FileNotFoundError
  | BadJSON => raise JSONDecodeError
  | Parsed countries_list => ret countries_list
  end.

Definition city_key_of (city_name country : string) : string :=
  city_name ++ ", " ++ country.

Definition record_of (city_name country : string) (city_data : city_json)
  : city_record :=
  {| city_of := city_name;
     country_of := match cd_country city_data with
                   | Some c => c
                   | None => country
                   end;
     index_of := cd_index city_data |}.

(** [COUNTRIES[country].append(city_name)]. *)
Definition append_COUNTRIES (country city_name : string) : M unit :=
  d <- read COUNTRIES ;;
  cities <- getitem d country ;;
  set_COUNTRIES country (cities ++ [city_name]).

Definition load_city (country : string) (city_data : city_json) : M unit :=
  city_name <- field "city" (cd_city city_data) ;;
  let city_key := city_key_of city_name country in
  set_CITIES_DATA city_key (record_of city_name country city_data) ;;
  append_COUNTRIES country city_name.

Definition load_country (country_data : country_json) : M unit :=
  country <- field "country" (cj_country country_data) ;;
  set_COUNTRIES country [] ;;
  cities <- field "cities" (cj_cities country_data) ;;
  for_each cities (load_city country).

(** The body of the [try] block. *)
Definition load_try (src : source) : M unit :=
  countries_list <- json_load src ;;
  for_each countries_list load_country.

(** Both handlers only print. *)
Definition load_cities_data (src : source) : M unit :=
  try_except (load_try src) (fun _ => ret tt).

(** ** Library operations on lists *)

Section Sorting.
Context {A K : Type} (ltb : K -> K -> bool) (key : A -> K).

(** [x] goes in front of the first element whose key is not above its
    own: an element that came earlier stays in front of its equals. *)
Fixpoint insert_desc (x : A) (l : list A) : list A :=
  match l with
  | [] => [x]
  | y :: l' =>
      if ltb (key x) (key y) then y :: insert_desc x l' else x :: y :: l'
  end.

(** [l.sort(key=key, reverse=True)] and [sorted(l, key=key, reverse=True)]:
    a stable sort into non-increasing keys, comparing with [<] only. *)
Definition sort_desc (l : list A) : list A := fold_right insert_desc [] l.

(** [x] has key [k], as far as [<] can tell. *)
Definition tied (k : K) (x : A) : bool :=
  negb (ltb (key x) k) && negb (ltb k (key x)).
End Sorting.

(** [l[:n]]: a negative [n] counts from the end. *)
Definition slice_to {A} (n : Z) (l : list A) : list A :=
  if (0 <=? n)%Z then firstn (Z.to_nat n) l
  else firstn (List.length l - Z.to_nat (- n)) l.

(** ** Requests and responses *)

(** The JSON body of [POST /city/score]. *)
Record score_request := {
  rq_city_name : option string;
  rq_country : option string
}.

(** The query string of [GET /cities/list]: [request.args]. *)
Record list_request := {
  arg_country : option string;
  arg_min_quality : option string;
  arg_max_cost : option string;
  arg_limit : option string
}.

(** [d.get(k, default)]. *)
Definition get_default {A} (o : option A) (default : A) : A :=
  match o with Some a => a | None => default end.

Record scores := {
  qualityOfLife : number;
  purchasingPower : number;
  safety : number;
  healthCare : number;
  costOfLiving : number;
  propertyPriceToIncome : number;
  trafficCommuteTime : number;
  pollution : number;
  climate : number
}.

Record score_result := {
  found : bool;
  result_city : string;
  result_country : string;
  result_scores : scores;
  internshipScore : float;
  recommendation : string;
  recommendationLevel : string
}.

Record score_error := {
  error : string;
  error_city : option string;
  error_country : option string;
  error_found : option bool
}.

Inductive score_body :=
| ScoreResult (r : score_result)
| ScoreError (e : score_error).

Record city_summary := {
  summary_city : string;
  summary_country : string;
  summary_qualityOfLife : number;
  summary_costOfLiving : number;
  summary_safety : number
}.

Record cities_list := {
  list_total : nat;
  cities : list city_summary
}.

Inductive list_body :=
| ListResult (r : cities_list)
| ListError (error : string) (cities : list city_summary).

Record country_summary := {
  summary_name : string;
  cityCount : nat
}.

Record countries_result := {
  total : nat;
  totalCities : nat;
  countries : list country_summary
}.

Inductive countries_body :=
| CountriesResult (r : countries_result)
| CountriesError (error : string) (countries : list country_summary).

Record health := {
  status : string;
  cities_loaded : nat;
  health_countries : nat
}.

(** A Flask view returns [(body, status)]; a bare body is a 200. *)
Definition response (B : Type) : Type := (B * nat)%type.

(** ** The handlers *)

(** [x * w] with a float [w]: an [int] is converted to a float first. *)
Definition times (x : number) (w : float) : M float :=
  match as_float x with
  | Some f => ret (f * w)%float
  | None => raise OverflowError
  end.

(** Lines 120-128: the weighted sum; each product is formed as soon as its
    sub-index is read, the sums from left to right. *)
Definition stage_score_of (city_data : city_record) : M float :=
  q <- getitem (index_of city_data) "qualityOfLifeIndex" ;;
  t1 <- times q 0.25 ;;
  s <- getitem (index_of city_data) "safetyIndex" ;;
  t2 <- times s 0.20 ;;
  p <- getitem (index_of city_data) "purchasingPowerIndex" ;;
  t3 <- times p 0.15 ;;
  c <- getitem (index_of city_data) "costOfLivingIndex" ;;
  t4 <- times (hundred_minus c) 0.15 ;;
  h <- getitem (index_of city_data) "healthCareIndex" ;;
  t5 <- times h 0.10 ;;
  po <- getitem (index_of city_data) "pollutionIndex" ;;
  t6 <- times (hundred_minus po) 0.10 ;;
  cl <- getitem (index_of city_data) "climateIndex" ;;
  t7 <- times cl 0.05 ;;
  ret (t1 + t2 + t3 + t4 + t5 + t6 + t7)%float.

(** Lines 130-141: [(recommendation, recommendation_level)]. *)
Definition recommend (stage_score : float) : string * string :=
  if num_leb (NInt 120) (NFloat stage_score)
  then ("Excellent choix", "excellent")
  else if num_leb (NInt 100) (NFloat stage_score)
  then ("Bon choix", "good")
  else if num_leb (NInt 80) (NFloat stage_score)
  then ("Choix correct", "average")
  else ("À considérer avec précaution", "poor").

(** Lines 147-157: the nine displayed values. *)
Definition scores_of (city_data : city_record) : M scores :=
  q <- getitem (index_of city_data) "qualityOfLifeIndex" ;;
  p <- getitem (index_of city_data) "purchasingPowerIndex" ;;
  s <- getitem (index_of city_data) "safetyIndex" ;;
  h <- getitem (index_of city_data) "healthCareIndex" ;;
  c <- getitem (index_of city_data) "costOfLivingIndex" ;;
  pp <- getitem (index_of city_data) "propertyPriceToIncomeRatio" ;;
  tc <- getitem (index_of city_data) "trafficCommuteTimeIndex" ;;
  po <- getitem (index_of city_data) "pollutionIndex" ;;
  cl <- getitem (index_of city_data) "climateIndex" ;;
  ret {| qualityOfLife := round1 q;
         purchasingPower := round1 p;
         safety := round1 s;
         healthCare := round1 h;
         costOfLiving := round1 c;
         propertyPriceToIncome := round1 pp;
         trafficCommuteTime := round1 tc;
         pollution := round1 po;
         climate := round1 cl |}.

(** Lines 120-161: what [find_city_score] does with the record it kept. *)
Definition score_record (city_data : city_record) : M score_result :=
  stage_score <- stage_score_of city_data ;;
  let '(recommendation, recommendation_level) := recommend stage_score in
  displayed <- scores_of city_data ;;
  ret {| found := true;
         result_city := city_of city_data;
         result_country := country_of city_data;
         result_scores := displayed;
         internshipScore := round1_float stage_score;
         recommendation := recommendation;
         recommendationLevel := recommendation_level |}.

(** [convert(request.args.get(k, default))] for [convert] one of [float]
    and [int]: the parameter's string converted, or the default, a number
    that converts to itself; [None] when the string does not convert. *)
Definition arg_value {A} (convert : string -> option A)
    (arg : option string) (default : A) : option A :=
  match arg with
  | None => Some default
  | Some s => convert s
  end.

(** The parameters of the handlers: what the module takes from Python and
    its library. *)
Section Handlers.
(** [str.lower]. *)
Variable lower : string -> string.
(** [float] and [int] on a string; [None] is a [ValueError]. *)
Variable parse_float : string -> option float.
Variable parse_int : string -> option Z.
(** [list.sort(key=..., reverse=True)] on summaries one of whose
    [qualityOfLife] is a NaN: the keys are not ordered by [<], and what
    the sort leaves depends on how its merges run. *)
Variable sort_unordered : list city_summary -> list city_summary.

Definition search_city (city_name : string)
  : M (list (string * city_record)) :=
  let city_lower := lower city_name in
  items <- read CITIES_DATA ;;
  ret (filter (fun m => contains city_lower (lower (city_of (snd m)))) items).

Definition health_check : M (response health) :=
  cities_data <- read CITIES_DATA ;;
  countries <- read COUNTRIES ;;
  ret ({| status := "healthy";
          cities_loaded := List.length cities_data;
          health_countries := List.length countries |}, 200%nat).

Definition find_city_score (data : score_request)
  : M (response score_body) :=
  let city_name := get_default (rq_city_name data) "" in
  let country := get_default (rq_country data) "" in
  if negb (truthy city_name) then
    ret (ScoreError {| error := "city_name requis";
                       error_city := None;
                       error_country := None;
                       error_found := None |}, 400%nat)
  else
    cities_data <- read CITIES_DATA ;;
    if Dict.is_empty cities_data then
      ret (ScoreError {| error := "Aucune donnée chargée";
                         error_city := Some city_name;
                         error_country := None;
                         error_found := Some false |}, 500%nat)
    else
      matches <- search_city city_name ;;
      match matches with
      | [] =>
          ret (ScoreError {| error := "Ville non trouvée";
                             error_city := Some city_name;
                             error_country := None;
                             error_found := Some false |}, 404%nat)
      | _ :: _ =>
          let matches :=
            if truthy country then
              filter (fun m => contains (lower country)
                                        (lower (country_of (snd m))))
                     matches
            else matches in
          match matches with
          | [] =>
              ret (ScoreError
                     {| error := "Ville '" ++ city_name
                                 ++ "' non trouvée dans le pays '"
                                 ++ country ++ "'";
                        error_city := Some city_name;
                        error_country := Some country;
                        error_found := Some false |}, 404%nat)
          | (key, city_data) :: _ =>
              r <- score_record city_data ;;
              ret (ScoreResult r, 200%nat)
          end
      end.

(** [float(request.args.get(k, default))]. *)
Definition float_arg (arg : option string) (default : float) : M float :=
  match arg_value parse_float arg default with
  | Some f => ret f
  | None => raise ValueError
  end.

(** [int(request.args.get(k, default))]. *)
Definition int_arg (arg : option string) (default : Z) : M Z :=
  match arg_value parse_int arg default with
  | Some n => ret n
  | None => raise ValueError
  end.

(** Lines 183-199: one pass over [CITIES_DATA.items()], keeping the
    summary of every record that passes the three tests. *)
Fixpoint list_filtered (country : string) (min_quality max_cost : float)
    (items : list (string * city_record)) : M (list city_summary) :=
  match items with
  | [] => ret []
  | (key, data) :: rest =>
      if truthy country
         && negb (contains (lower country) (lower (country_of data)))
      then list_filtered country min_quality max_cost rest
      else
        q <- getitem (index_of data) "qualityOfLifeIndex" ;;
        if num_ltb q (NFloat min_quality)
        then list_filtered country min_quality max_cost rest
        else
          c <- getitem (index_of data) "costOfLivingIndex" ;;
          if num_ltb (NFloat max_cost) c
          then list_filtered country min_quality max_cost rest
          else
            s <- getitem (index_of data) "safetyIndex" ;;
            filtered <- list_filtered country min_quality max_cost rest ;;
            ret ({| summary_city := city_of data;
                    summary_country := country_of data;
                    summary_qualityOfLife := round1 q;
                    summary_costOfLiving := round1 c;
                    summary_safety := round1 s |} :: filtered)
  end.

(** Line 201: [filtered.sort(key=lambda x: x['qualityOfLife'],
    reverse=True)]. *)
Definition sort_by_quality (filtered : list city_summary)
  : list city_summary :=
  if existsb (fun x => is_nan (summary_qualityOfLife x)) filtered
  then sort_unordered filtered
  else sort_desc num_ltb summary_qualityOfLife filtered.

(** Lines 176-178 run before the test of line 180: a parameter that does
    not parse is a [ValueError] whatever [CITIES_DATA] holds. *)
Definition list_cities (args : list_request) : M (response list_body) :=
  let country := get_default (arg_country args) "" in
  min_quality <- float_arg (arg_min_quality args) 0 ;;
  max_cost <- float_arg (arg_max_cost args) 200 ;;
  limit <- int_arg (arg_limit args) 20 ;;
  cities_data <- read CITIES_DATA ;;
  if Dict.is_empty cities_data then
    ret (ListError "Aucune donnée chargée" [], 500%nat)
  else
    items <- read CITIES_DATA ;;
    filtered <- list_filtered country min_quality max_cost items ;;
    let filtered := sort_by_quality filtered in
    let filtered := slice_to limit filtered in
    ret (ListResult {| list_total := List.length filtered;
                       cities := filtered |}, 200%nat).

Definition get_countries : M (response countries_body) :=
  countries <- read COUNTRIES ;;
  if Dict.is_empty countries then
    ret (CountriesError "Aucune donnée chargée" [], 500%nat)
  else
    items <- read COUNTRIES ;;
    let countries_list :=
      map (fun x => {| summary_name := fst x;
                       cityCount := List.length (snd x) |})
          (sort_desc Nat.ltb (fun x => List.length (snd x)) items) in
    n <- read COUNTRIES ;;
    cities_data <- read CITIES_DATA ;;
    ret (CountriesResult {| total := List.length n;
                            totalCities := List.length cities_data;
                            countries := countries_list |}, 200%nat).
End Handlers.

(** ** Notions used to state the properties *)

(** The record [find_city_score] keeps: [matches[0]] after both filters. *)
Definition first_match (lower : string -> string) (data : score_request)
    (g : globals) : option city_record :=
  let city_name := get_default (rq_city_name data) "" in
  let country := get_default (rq_country data) "" in
  let matches :=
    filter (fun m => contains (lower city_name) (lower (city_of (snd m))))
           (CITIES_DATA g) in
  let matches :=
    if truthy country then
      filter (fun m => contains (lower country) (lower (country_of (snd m))))
             matches
    else matches in
  option_map snd (hd_error matches).

(** The seven sub-indices the weighted sum reads. *)
Definition scoring_keys : list string :=
  ["qualityOfLifeIndex"; "safetyIndex"; "purchasingPowerIndex";
   "costOfLivingIndex"; "healthCareIndex"; "pollutionIndex"; "climateIndex"].

(** The two sub-indices that are only displayed. *)
Definition display_only_keys : list string :=
  ["propertyPriceToIncomeRatio"; "trafficCommuteTimeIndex"].

(** A record carrying these sub-indices. *)
Definition has_keys (ks : list string) (city_data : city_record) : Prop :=
  Forall (fun k => Dict.get k (index_of city_data) <> None) ks.

(** ** The data file, read as the loop reads it *)

Definition group_country (country_data : country_json) : string :=
  get_default (cj_country country_data) "".

Definition group_cities (country_data : country_json) : list city_json :=
  get_default (cj_cities country_data) [].

Definition city_name_of (city_data : city_json) : string :=
  get_default (cd_city city_data) "".

(** The city names of a group, in file order. *)
Definition group_names (country_data : country_json) : list string :=
  map city_name_of (group_cities country_data).

(** The assignments to [CITIES_DATA] a group makes, in file order. *)
Definition group_records (country_data : country_json)
  : list (string * city_record) :=
  map (fun city_data =>
         (city_key_of (city_name_of city_data) (group_country country_data),
          record_of (city_name_of city_data) (group_country country_data)
                    city_data))
      (group_cities country_data).

(** The assignments to [COUNTRIES] a file makes once each group is done. *)
Definition dataset_countries (countries_list : list country_json)
  : list (string * list string) :=
  map (fun cd => (group_country cd, group_names cd)) countries_list.

(** A group with every key the loop indexes. *)
Definition complete_group (country_data : country_json) : Prop :=
  cj_country country_data <> None
  /\ cj_cities country_data <> None
  /\ Forall (fun city_data => cd_city city_data <> None)
            (group_cities country_data).

(** The composite keys of a file, one per city entry. *)
Definition dataset_keys (countries_list : list country_json) : list string :=
  map fst (flat_map group_records countries_list).

(** [citiesByCountry] as the specification words it: every group registers
    its country, and every city of every group of that country is appended
    to the country's sequence. *)
Definition citiesByCountry (countries_list : list country_json)
    (country : string) : option (list string) :=
  match filter (fun cd => String.eqb (group_country cd) country)
               countries_list with
  | [] => None
  | groups => Some (flat_map group_names groups)
  end.

(** ** [ListCities], read as the specification words it *)

Definition quality_of (data : city_record) : number :=
  get_default (Dict.get "qualityOfLifeIndex" (index_of data)) (NInt 0).

Definition cost_of (data : city_record) : number :=
  get_default (Dict.get "costOfLivingIndex" (index_of data)) (NInt 0).

Definition safety_of (data : city_record) : number :=
  get_default (Dict.get "safetyIndex" (index_of data)) (NInt 0).

(** The sub-indices [list_cities] reads. *)
Definition listing_keys : list string :=
  ["qualityOfLifeIndex"; "costOfLivingIndex"; "safetyIndex"].

(** The country filter is empty or the record's country contains it
    case-insensitively. *)
Definition in_country (lower : string -> string) (country : string)
    (data : city_record) : bool :=
  negb (truthy country)
  || contains (lower country) (lower (country_of data)).

(** The filter predicate: the country filter is empty or the record's
    country contains it case-insensitively, the quality of life is at least
    [min_quality], the cost of living at most [max_cost]. *)
Definition passes (lower : string -> string) (country : string)
    (min_quality max_cost : float) (data : city_record) : bool :=
  in_country lower country data
  && num_leb (NFloat min_quality) (quality_of data)
  && num_leb (cost_of data) (NFloat max_cost).

(** The tests of the loop, lines 185-191: a record is skipped when its
    quality of life is below [min_quality] or its cost of living above
    [max_cost], and kept otherwise. *)
Definition kept (lower : string -> string) (country : string)
    (min_quality max_cost : float) (data : city_record) : bool :=
  in_country lower country data
  && negb (num_ltb (quality_of data) (NFloat min_quality))
  && negb (num_ltb (NFloat max_cost) (cost_of data)).

(** The projection of a record to a summary, rounded to one decimal. *)
Definition summarize (data : city_record) : city_summary :=
  {| summary_city := city_of data;
     summary_country := country_of data;
     summary_qualityOfLife := round1 (quality_of data);
     summary_costOfLiving := round1 (cost_of data);
     summary_safety := round1 (safety_of data) |}.

(** The summaries of the records the loop keeps, in iteration order. *)
Definition passing (lower : string -> string) (country : string)
    (min_quality max_cost : float) (g : globals) : list city_summary :=
  map summarize
      (filter (kept lower country min_quality max_cost)
              (map snd (CITIES_DATA g))).

(** Two summaries with the same [qualityOfLife] by value. *)
Definition same_quality (k : number) (x : city_summary) : bool :=
  num_leb k (summary_qualityOfLife x) && num_leb (summary_qualityOfLife x) k.

(** A computation that leaves the globals as it found them. *)
Definition read_only {A} (m : M A) : Prop := forall g, snd (m g) = g.

(** Two requests in a row: the first outcome, the second, and what both
    leave of the globals. *)
Definition repeatable {A} (m : M A) : Prop :=
  forall g,
    let (r1, g1) := m g in
    let (r2, g2) := m g1 in
    r1 = r2 /\ g1 = g /\ g2 = g.

(** The globals once the module is imported. *)
Definition loaded (src : source) : globals :=
  snd (load_cities_data src initial).

(** ** Sample data *)

(** Instances of [float] and [int] on a string, to run the model: an
    optional sign and decimal digits, and ["nan"] for [float]. *)
Fixpoint digits_value (acc : Z) (s : string) : option Z :=
  match s with
  | EmptyString => Some acc
  | String c s' =>
      let n := nat_of_ascii c in
      if (Nat.leb 48 n && Nat.leb n 57)%bool
      then digits_value (10 * acc + Z.of_nat (n - 48)) s'
      else None
  end.

Definition int_of_string (s : string) : option Z :=
  match s with
  | EmptyString => None
  | String "-" (String c s') => option_map Z.opp (digits_value 0 (String c s'))
  | _ => digits_value 0 s
  end.

Definition float_of_string (s : string) : option float :=
  if String.eqb s "nan" then Some nan
  else match int_of_string s with
       | Some n =>
           Some (SF2Prim (binary_normalize prec emax n 0 false))
       | None => None
       end.

(** The Berlin of the worked example; the two sub-indices the example leaves
    out are [pp] and [tc]. *)
Definition berlin_index (pp tc : number) : Dict.t number :=
  [("qualityOfLifeIndex", NInt 180); ("safetyIndex", NInt 85);
   ("purchasingPowerIndex", NInt 70); ("costOfLivingIndex", NInt 60);
   ("healthCareIndex", NInt 80); ("pollutionIndex", NInt 30);
   ("climateIndex", NInt 65);
   ("propertyPriceToIncomeRatio", pp); ("trafficCommuteTimeIndex", tc)].

Definition berlin (pp tc : number) : city_json :=
  {| cd_city := Some "Berlin"; cd_country := None;
     cd_index := berlin_index pp tc |}.

Definition germany (pp tc : number) : list country_json :=
  [{| cj_country := Some "Germany"; cj_cities := Some [berlin pp tc] |}].

Definition ask (city_name : string) : score_request :=
  {| rq_city_name := Some city_name; rq_country := None |}.

(** A city entry with the three sub-indices [list_cities] reads. *)
Definition town (city_name : string) (quality : number) : city_json :=
  {| cd_city := Some city_name; cd_country := None;
     cd_index := [("qualityOfLifeIndex", quality);
                  ("costOfLivingIndex", NInt 50);
                  ("safetyIndex", NInt 60)] |}.

Definition group (country : string) (cities : list city_json)
  : country_json :=
  {| cj_country := Some country; cj_cities := Some cities |}.

(** One city listed twice in its group. *)
Definition berlin_twice : list country_json :=
  [group "Germany" [town "Berlin" (NInt 180); town "Berlin" (NInt 180)]].

(** One country in two groups. *)
Definition germany_twice : list country_json :=
  [group "Germany" [town "Berlin" (NInt 180)];
   group "Germany" [town "Munich" (NInt 170)]].

(** A group without its ["country"] key after a good one. *)
Definition broken_second : list country_json :=
  [group "Germany" [town "Berlin" (NInt 180)];
   {| cj_country := None; cj_cities := Some [town "Paris" (NInt 150)] |}].

(** Two towns of one country, the second with the higher quality. *)
Definition two_towns : list country_json :=
  [group "Germany" [town "Bonn" (NInt 150); town "Berlin" (NInt 180)]].

(** A town whose quality of life index is 1000. *)
Definition high_town : list country_json :=
  [group "Utopia" [town "Eden" (NInt 1000)]].

Definition list_all (limit : string) : list_request :=
  {| arg_country := None; arg_min_quality := None; arg_max_cost := None;
     arg_limit := Some limit |}.

Definition list_above (min_quality : string) : list_request :=
  {| arg_country := None; arg_min_quality := Some min_quality;
     arg_max_cost := None; arg_limit := None |}.

(** A city entry with the nine sub-indices, the seven of the weighted sum
    given and the two others 0. *)
Definition full_city (city_name : string) (q s p c h po cl : number)
  : city_json :=
  {| cd_city := Some city_name; cd_country := None;
     cd_index :=
       [("qualityOfLifeIndex", q); ("safetyIndex", s);
        ("purchasingPowerIndex", p); ("costOfLivingIndex", c);
        ("healthCareIndex", h); ("pollutionIndex", po); ("climateIndex", cl);
        ("propertyPriceToIncomeRatio", NInt 0);
        ("trafficCommuteTimeIndex", NInt 0)] |}.

(** A file of one city. *)
Definition one_city (city_data : city_json) : source :=
  Parsed [group "Land" [city_data]].



(** A city whose weighted sum falls just short of 80. *)
Definition quito : city_json :=
  full_city "Quito" (NInt 89) (NInt 100) (NInt 97) (NInt 33) (NInt 41)
            (NInt 40) (NInt 61).

Definition nearly_average : source := one_city quito.


(** A city whose weighted sum is a quarter of its quality of life index:
    every other operand of the sum is 0. *)
Definition oslo (quality : Z) : city_json :=
  full_city "Oslo" (NInt quality) (NInt 0) (NInt 0) (NInt 100) (NInt 0)
            (NInt 100) (NInt 0).

Definition scoring_exactly (quality : Z) : source := one_city (oslo quality).

(** Two cities with their nine sub-indices. *)
Definition two_cities : source := Parsed [group "Land" [quito; oslo 480]].

(** ** Start-up *)

Inductive startup :=
| Exit (code : nat)
| Serving (g : globals).

(** The module body and its [__main__] block: the load at import, then
    [exit(1)] on an empty [CITIES_DATA], else [app.run]. *)
Definition main (src : source) : startup :=
  let g := loaded src in
  if Dict.is_empty (CITIES_DATA g) then Exit 1 else Serving g.

(** ** Further notions *)

(** The operand of the weighted sum read under a key: the sub-index, or
    100 minus it. *)
Definition operand_of (k : string) (x : number) : number :=
  if String.eqb k "costOfLivingIndex" || String.eqb k "pollutionIndex"
  then hundred_minus x else x.

(** The seven operands of the weighted sum are there and none is an [int]
    too large for a float. *)
Definition summable (city_data : city_record) : Prop :=
  Forall (fun k => exists x f, Dict.get k (index_of city_data) = Some x
                               /\ as_float (operand_of k x) = Some f)
         scoring_keys.

(** Every name listed under a country has a record under its composite
    key. *)
Definition names_have_records (g : globals) : Prop :=
  forall country names city_name,
    Dict.get country (COUNTRIES g) = Some names ->
    In city_name names ->
    Dict.get (city_key_of city_name country) (CITIES_DATA g) <> None.

(** The summary [get_countries] makes of an entry of [COUNTRIES]. *)
Definition count_cities (x : string * list string) : country_summary :=
  {| summary_name := fst x; cityCount := List.length (snd x) |}.

(** * Properties *)

(** ** Numbers: facts *)

Lemma Qltb_lt (x y : Q) : Qltb x y = true <-> x < y.
Proof.
  unfold Qltb. rewrite Qlt_alt.
  destruct (Qcompare x y); split; intros H; try reflexivity; discriminate.
Qed.

Lemma Qltb_ge (x y : Q) : Qltb x y = false <-> y <= x.
Proof.
  split; intros H.
  - apply Qnot_lt_le. intros L. apply Qltb_lt in L. congruence.
  - destruct (Qltb x y) eqn:E; [ | reflexivity ].
    apply Qltb_lt in E. exfalso. apply (Qlt_not_le _ _ E H).
Qed.

Lemma Qle_bool_false (x y : Q) : Qle_bool x y = false <-> y < x.
Proof.
  split; intros H.
  - apply Qnot_le_lt. intros L. apply Qle_bool_iff in L. congruence.
  - destruct (Qle_bool x y) eqn:E; [ | reflexivity ].
    apply Qle_bool_iff in E. exfalso. apply (Qlt_not_le _ _ H E).
Qed.

Lemma Qltb_asym (a b : Q) : Qltb a b = true -> Qltb b a = false.
Proof. rewrite Qltb_lt, Qltb_ge. apply Qlt_le_weak. Qed.

Lemma Qltb_negtrans (a b c : Q) :
  Qltb a b = false -> Qltb b c = false -> Qltb a c = false.
Proof. rewrite !Qltb_ge. intros H1 H2. apply (Qle_trans _ _ _ H2 H1). Qed.

Lemma Qltb_negb_le (x y : Q) : Qltb x y = negb (Qle_bool y x).
Proof.
  destruct (Qle_bool y x) eqn:E; simpl.
  - apply Qltb_ge. apply Qle_bool_iff. exact E.
  - apply Qltb_lt. apply Qle_bool_false. exact E.
Qed.

(** [<] by value is asymmetric, also around a NaN. *)
Lemma ext_ltb_asym (a b : extended) :
  ext_ltb a b = true -> ext_ltb b a = false.
Proof.
  destruct a, b; simpl; try reflexivity; try discriminate.
  apply Qltb_asym.
Qed.

(** Away from NaN, [a < b] is the negation of [b <= a]. *)
Lemma ext_ltb_negb_leb (a b : extended) :
  a <> NaN -> b <> NaN -> ext_ltb a b = negb (ext_leb b a).
Proof.
  destruct a, b; simpl; intros Ha Hb; try reflexivity; try congruence.
  apply Qltb_negb_le.
Qed.

Lemma ext_ltb_negtrans (a b c : extended) :
  b <> NaN ->
  ext_ltb a b = false -> ext_ltb b c = false -> ext_ltb a c = false.
Proof.
  destruct a, b, c; simpl; intros Hb; try reflexivity; try congruence.
  apply Qltb_negtrans.
Qed.

(** Whatever the operands, [a < b] excludes [b <= a]. *)
Lemma ext_ltb_not_leb (a b : extended) :
  ext_ltb a b = true -> ext_leb b a = false.
Proof.
  destruct a, b; simpl; try reflexivity; try discriminate.
  intros H. apply Qle_bool_false. apply Qltb_lt. exact H.
Qed.

Lemma is_nan_exact (x : number) : is_nan x = false <-> exact x <> NaN.
Proof.
  unfold is_nan. destruct (exact x); split; intros H; congruence.
Qed.

Lemma num_ltb_asym (x y : number) :
  num_ltb x y = true -> num_ltb y x = false.
Proof. apply ext_ltb_asym. Qed.

Lemma num_ltb_negtrans (x y z : number) :
  is_nan y = false ->
  num_ltb x y = false -> num_ltb y z = false -> num_ltb x z = false.
Proof. intros H. apply ext_ltb_negtrans. apply is_nan_exact. exact H. Qed.

Lemma num_ltb_negb_leb (x y : number) :
  is_nan x = false -> is_nan y = false ->
  num_ltb x y = negb (num_leb y x).
Proof.
  intros Hx Hy. apply ext_ltb_negb_leb; apply is_nan_exact; assumption.
Qed.

Lemma num_ltb_not_leb (x y : number) :
  num_ltb x y = true -> num_leb y x = false.
Proof. apply ext_ltb_not_leb. Qed.

(** A number that compares with another is no NaN. *)
Lemma num_leb_not_nan (x y : number) :
  num_leb x y = true -> is_nan x = false /\ is_nan y = false.
Proof.
  unfold num_leb, is_nan. destruct (exact x), (exact y); simpl; auto;
    discriminate.
Qed.


(** ** Dictionaries: facts *)

Lemma truthy_true (s : string) : truthy s = true <-> s <> "".
Proof.
  unfold truthy. rewrite negb_true_iff.
  destruct (String.eqb_spec s ""); split; intros; congruence.
Qed.

Lemma truthy_false (s : string) : truthy s = false <-> s = "".
Proof.
  unfold truthy. rewrite negb_false_iff. apply String.eqb_eq.
Qed.

Lemma getitem_some {V} (d : Dict.t V) (k : string) (v : V) (g : globals) :
  Dict.get k d = Some v -> getitem d k g = (Return v, g).
Proof. intros H. unfold getitem. rewrite H. reflexivity. Qed.

(** ** Computations that only read the globals *)

Lemma read_only_ret {A} (a : A) : read_only (ret a).
Proof. intros g. reflexivity. Qed.

Lemma read_only_raise {A} (e : exn) : read_only (@raise A e).
Proof. intros g. reflexivity. Qed.

Lemma read_only_read {A} (f : globals -> A) : read_only (read f).
Proof. intros g. reflexivity. Qed.

Lemma read_only_getitem {V} (d : Dict.t V) (k : string) :
  read_only (getitem d k).
Proof. unfold getitem. destruct (Dict.get k d); intros g; reflexivity. Qed.

Lemma read_only_bind {A B} (m : M A) (k : A -> M B) :
  read_only m -> (forall a, read_only (k a)) -> read_only (bind m k).
Proof.
  intros Hm Hk g. unfold bind. specialize (Hm g).
  destruct (m g) as [[a | e] g']; simpl in Hm; subst g'.
  - apply Hk.
  - reflexivity.
Qed.

Lemma read_only_times (x : number) (w : float) : read_only (times x w).
Proof. unfold times. destruct (as_float x); intros g; reflexivity. Qed.

Lemma read_only_float_arg parse_float arg default :
  read_only (float_arg parse_float arg default).
Proof.
  unfold float_arg. destruct (arg_value _ _ _); intros g; reflexivity.
Qed.

Lemma read_only_int_arg parse_int arg default :
  read_only (int_arg parse_int arg default).
Proof.
  unfold int_arg. destruct (arg_value _ _ _); intros g; reflexivity.
Qed.

Create HintDb ro discriminated.
#[local] Hint Resolve read_only_ret read_only_raise read_only_read
  read_only_getitem read_only_times read_only_float_arg read_only_int_arg
  : ro.

Ltac read_only_tac :=
  repeat first
    [ apply read_only_bind; [ | intros ? ]
    | solve [ auto with ro ]
    | match goal with
      | |- read_only (if ?b then _ else _) => destruct b
      | |- read_only (match ?x with _ => _ end) => destruct x
      | |- read_only (let '(_, _) := ?x in _) => destruct x
      end ].

Lemma read_only_stage_score_of (city_data : city_record) :
  read_only (stage_score_of city_data).
Proof. unfold stage_score_of. read_only_tac. Qed.

Lemma read_only_scores_of (city_data : city_record) :
  read_only (scores_of city_data).
Proof. unfold scores_of. read_only_tac. Qed.

#[local] Hint Resolve read_only_stage_score_of read_only_scores_of : ro.

Lemma read_only_score_record (city_data : city_record) :
  read_only (score_record city_data).
Proof. unfold score_record. read_only_tac. Qed.

#[local] Hint Resolve read_only_score_record : ro.

Lemma read_only_search_city lower (city_name : string) :
  read_only (search_city lower city_name).
Proof. unfold search_city. read_only_tac. Qed.

#[local] Hint Resolve read_only_search_city : ro.

Lemma read_only_find_city_score lower (data : score_request) :
  read_only (find_city_score lower data).
Proof. unfold find_city_score. read_only_tac. Qed.

Lemma read_only_list_filtered lower country min_quality max_cost items :
  read_only (list_filtered lower country min_quality max_cost items).
Proof.
  induction items as [ | [key data] rest IH ]; simpl.
  - auto with ro.
  - read_only_tac; exact IH.
Qed.

#[local] Hint Resolve read_only_list_filtered : ro.

Lemma read_only_list_cities lower parse_float parse_int sort_unordered
    (args : list_request) :
  read_only (list_cities lower parse_float parse_int sort_unordered args).
Proof. unfold list_cities. read_only_tac. Qed.

Lemma read_only_get_countries : read_only get_countries.
Proof. unfold get_countries. read_only_tac. Qed.

Lemma read_only_health_check : read_only health_check.
Proof. unfold health_check. read_only_tac. Qed.

(** Running a read-only computation gives its outcome and the same globals. *)
Lemma read_only_run {A} (m : M A) (g : globals) :
  read_only m -> m g = (fst (m g), g).
Proof.
  intros H. specialize (H g). destruct (m g) as [o g']. simpl in *.
  congruence.
Qed.

(** ** Scoring: facts *)

Ltac run_getitem :=
  repeat match goal with
    | H : Dict.get ?k ?d = Some ?v |- context [getitem ?d ?k ?g] =>
        rewrite (getitem_some d k v g H)
    end.

Lemma times_some (x : number) (w f : float) (g : globals) :
  as_float x = Some f -> times x w g = (Return (f * w)%float, g).
Proof. intros H. unfold times. rewrite H. reflexivity. Qed.

Ltac run_times :=
  repeat match goal with
    | H : as_float ?x = Some ?f |- context [times ?x ?w ?g] =>
        rewrite (times_some x w f g H)
    end.

Lemma stage_score_of_ok (city_data : city_record) (g : globals)
    (q s p c h po cl : number) (fq fs fp fc fh fpo fcl : float) :
  Dict.get "qualityOfLifeIndex" (index_of city_data) = Some q ->
  Dict.get "safetyIndex" (index_of city_data) = Some s ->
  Dict.get "purchasingPowerIndex" (index_of city_data) = Some p ->
  Dict.get "costOfLivingIndex" (index_of city_data) = Some c ->
  Dict.get "healthCareIndex" (index_of city_data) = Some h ->
  Dict.get "pollutionIndex" (index_of city_data) = Some po ->
  Dict.get "climateIndex" (index_of city_data) = Some cl ->
  as_float q = Some fq ->
  as_float s = Some fs ->
  as_float p = Some fp ->
  as_float (hundred_minus c) = Some fc ->
  as_float h = Some fh ->
  as_float (hundred_minus po) = Some fpo ->
  as_float cl = Some fcl ->
  stage_score_of city_data g
  = (Return (fq * 0.25 + fs * 0.20 + fp * 0.15 + fc * 0.15 + fh * 0.10
             + fpo * 0.10 + fcl * 0.05)%float, g).
Proof.
  intros Hq Hs Hp Hc Hh Hpo Hcl Fq Fs Fp Fc Fh Fpo Fcl.
  unfold stage_score_of.
  repeat (unfold bind at 1; run_getitem; unfold bind at 1; run_times).
  reflexivity.
Qed.

Lemma stage_score_of_ext (d1 d2 : city_record) (g1 g2 : globals) :
  Forall (fun k => Dict.get k (index_of d1) = Dict.get k (index_of d2))
         scoring_keys ->
  fst (stage_score_of d1 g1) = fst (stage_score_of d2 g2).
Proof.
  intros H. unfold scoring_keys in H.
  repeat match goal with
    | H : Forall _ (_ :: _) |- _ => inversion H; clear H; subst
    end.
  unfold stage_score_of, bind, getitem, times.
  repeat match goal with
    | E : Dict.get ?k (index_of d1) = _ |- context [Dict.get ?k (index_of d1)] =>
        rewrite E; clear E;
        let x := fresh "x" in
        destruct (Dict.get k (index_of d2)) as [ x | ]; [ | reflexivity ];
        cbv [ret raise];
        match goal with
        | |- context [as_float ?y] => destruct (as_float y); [ | reflexivity ]
        end
    end.
  reflexivity.
Qed.

Lemma score_record_return (city_data : city_record) (g g' : globals)
    (r : score_result) :
  score_record city_data g = (Return r, g') ->
  exists stage_score,
    stage_score_of city_data g = (Return stage_score, g)
    /\ g' = g
    /\ found r = true
    /\ internshipScore r = round1_float stage_score
    /\ recommendation r = fst (recommend stage_score)
    /\ recommendationLevel r = snd (recommend stage_score).
Proof.
  intros H.
  assert (Hg : g' = g).
  { pose proof (read_only_score_record city_data g) as R.
    rewrite H in R. exact R. }
  subst g'. unfold score_record, bind in H.
  rewrite (read_only_run _ g (read_only_stage_score_of city_data)) in H.
  destruct (fst (stage_score_of city_data g)) as [s | e] eqn:Es;
    [ | discriminate ].
  exists s. split.
  { rewrite (read_only_run _ g (read_only_stage_score_of city_data)).
    rewrite Es. reflexivity. }
  destruct (recommend s) as [rec lvl].
  destruct (scores_of city_data g) as [[sc | e] g1]; [ | discriminate ].
  inversion H; subst. simpl. auto.
Qed.

Lemma has_keys_get (ks : list string) (city_data : city_record) (k : string) :
  has_keys ks city_data -> In k ks ->
  exists v, Dict.get k (index_of city_data) = Some v.
Proof.
  intros H I. unfold has_keys in H. rewrite Forall_forall in H.
  specialize (H k I). destruct (Dict.get k (index_of city_data)) as [v | ].
  - exists v. reflexivity.
  - congruence.
Qed.

Lemma summable_get (city_data : city_record) (k : string) :
  summable city_data -> In k scoring_keys ->
  exists x f, Dict.get k (index_of city_data) = Some x
              /\ as_float (operand_of k x) = Some f.
Proof.
  intros H I. unfold summable in H. rewrite Forall_forall in H.
  exact (H k I).
Qed.

(** The weighted sum of a record whose seven operands are there and fit. *)
Lemma stage_score_of_summable (city_data : city_record) (g : globals) :
  summable city_data ->
  exists stage_score, stage_score_of city_data g = (Return stage_score, g).
Proof.
  intros H.
  destruct (summable_get _ "qualityOfLifeIndex" H) as (q & fq & Hq & Fq);
    [ simpl; tauto | ].
  destruct (summable_get _ "safetyIndex" H) as (s & fs & Hs & Fs);
    [ simpl; tauto | ].
  destruct (summable_get _ "purchasingPowerIndex" H) as (p & fp & Hp & Fp);
    [ simpl; tauto | ].
  destruct (summable_get _ "costOfLivingIndex" H) as (c & fc & Hc & Fc);
    [ simpl; tauto | ].
  destruct (summable_get _ "healthCareIndex" H) as (h & fh & Hh & Fh);
    [ simpl; tauto | ].
  destruct (summable_get _ "pollutionIndex" H) as (po & fpo & Hpo & Fpo);
    [ simpl; tauto | ].
  destruct (summable_get _ "climateIndex" H) as (cl & fcl & Hcl & Fcl);
    [ simpl; tauto | ].
  eexists.
  apply (stage_score_of_ok city_data g q s p c h po cl fq fs fp fc fh fpo fcl);
    assumption.
Qed.

(** The displayed scores of a record with all nine sub-indices. *)
Lemma scores_of_total (city_data : city_record) (g : globals) :
  has_keys (scoring_keys ++ display_only_keys) city_data ->
  exists displayed, scores_of city_data g = (Return displayed, g).
Proof.
  intros H.
  assert (G : forall k, In k (scoring_keys ++ display_only_keys) ->
                        exists v, Dict.get k (index_of city_data) = Some v)
    by (intros k; apply has_keys_get; exact H).
  destruct (G "qualityOfLifeIndex") as [q Hq]; [ simpl; tauto | ].
  destruct (G "safetyIndex") as [s Hs]; [ simpl; tauto | ].
  destruct (G "purchasingPowerIndex") as [p Hp]; [ simpl; tauto | ].
  destruct (G "costOfLivingIndex") as [c Hc]; [ simpl; tauto | ].
  destruct (G "healthCareIndex") as [h Hh]; [ simpl; tauto | ].
  destruct (G "pollutionIndex") as [po Hpo]; [ simpl; tauto | ].
  destruct (G "climateIndex") as [cl Hcl]; [ simpl; tauto | ].
  destruct (G "propertyPriceToIncomeRatio") as [pp Hpp]; [ simpl; tauto | ].
  destruct (G "trafficCommuteTimeIndex") as [tc Htc]; [ simpl; tauto | ].
  unfold scores_of, bind. run_getitem. cbv [ret]. eexists. reflexivity.
Qed.

Lemma summable_has_keys (city_data : city_record) :
  summable city_data -> has_keys scoring_keys city_data.
Proof.
  unfold summable, has_keys. apply Forall_impl.
  intros k (x & f & Hx & _). congruence.
Qed.

(** A record with all nine sub-indices whose operands fit is scored: no
    exception. *)
Lemma score_record_total (city_data : city_record) (g : globals) :
  summable city_data ->
  has_keys display_only_keys city_data ->
  exists r, score_record city_data g = (Return r, g).
Proof.
  intros S D.
  destruct (stage_score_of_summable city_data g S) as [s Hs].
  destruct (scores_of_total city_data g) as [sc Hsc].
  { unfold has_keys. apply Forall_app. split; [ | exact D ].
    apply summable_has_keys. exact S. }
  unfold score_record, bind. rewrite Hs.
  destruct (recommend s) as [rec lvl]. rewrite Hsc.
  cbv [ret]. eexists. reflexivity.
Qed.

(** Past its three guards, [find_city_score] scores the first match. *)
Lemma find_city_score_first_match lower (data : score_request) (g : globals)
    (city_data : city_record) :
  get_default (rq_city_name data) "" <> "" ->
  first_match lower data g = Some city_data ->
  find_city_score lower data g
  = (r <- score_record city_data ;; ret (ScoreResult r, 200%nat)) g.
Proof.
  intros Hn Hm. apply truthy_true in Hn.
  unfold first_match in Hm.
  cbv [find_city_score search_city bind read ret].
  rewrite Hn. cbn [negb]. cbv beta iota.
  destruct (CITIES_DATA g) as [ | kv rest ] eqn:Ec.
  - revert Hm. simpl.
    destruct (truthy (get_default (rq_country data) "")); simpl; discriminate.
  - cbn [Dict.is_empty]. cbv beta iota. rewrite Ec.
    destruct (filter _ (kv :: rest)) as [ | m ms ].
    + revert Hm. simpl.
      destruct (truthy (get_default (rq_country data) "")); simpl;
        discriminate.
    + destruct (truthy (get_default (rq_country data) "")).
      * destruct (filter _ (m :: ms)) as [ | [key d] ms' ]; [ discriminate | ].
        simpl in Hm. inversion Hm; subst. reflexivity.
      * destruct m as [key d]. simpl in Hm. inversion Hm; subst. reflexivity.
Qed.

(** ** ScoreCity *)




Lemma ext_leb_ltb_trans (a b c : extended) :
  ext_leb a b = true -> ext_ltb b c = true -> ext_ltb a c = true.
Proof.
  destruct a, b, c; simpl; try reflexivity; try discriminate.
  intros H1 H2. apply Qltb_lt. apply Qle_bool_iff in H1.
  apply Qltb_lt in H2. apply (Qle_lt_trans _ _ _ H1 H2).
Qed.

Lemma recommend_level (s : float) :
  (num_leb (NInt 120) (NFloat s) = true ->
   recommend s = ("Excellent choix", "excellent"))
  /\ (num_leb (NInt 100) (NFloat s) = true ->
      num_ltb (NFloat s) (NInt 120) = true ->
      recommend s = ("Bon choix", "good"))
  /\ (num_leb (NInt 80) (NFloat s) = true ->
      num_ltb (NFloat s) (NInt 100) = true ->
      recommend s = ("Choix correct", "average"))
  /\ (num_ltb (NFloat s) (NInt 80) = true ->
      recommend s = ("À considérer avec précaution", "poor")).
Proof.
  assert (B : forall a b : Z,
             (b < a)%Z -> num_ltb (NFloat s) (NInt b) = true ->
             num_leb (NInt a) (NFloat s) = false).
  { intros a b L H.
    destruct (num_leb (NInt a) (NFloat s)) eqn:E; [ | reflexivity ].
    pose proof (ext_leb_ltb_trans _ _ _ E H) as T. simpl in T.
    apply Qltb_lt in T. rewrite <- Zlt_Qlt in T. lia. }
  unfold recommend. repeat split.
  - intros H. rewrite H. reflexivity.
  - intros H1 H2. rewrite (num_ltb_not_leb _ _ H2), H1. reflexivity.
  - intros H1 H2.
    rewrite (B 120%Z 100%Z ltac:(lia) H2), (num_ltb_not_leb _ _ H2), H1.
    reflexivity.
  - intros H.
    rewrite (B 120%Z 80%Z ltac:(lia) H), (B 100%Z 80%Z ltac:(lia) H),
      (num_ltb_not_leb _ _ H).
    reflexivity.
Qed.

(** What [stage_score_of] returned was summed from seven operands that are
    there and fit. *)
Lemma stage_score_of_return (city_data : city_record) (g g' : globals)
    (stage_score : float) :
  stage_score_of city_data g = (Return stage_score, g') ->
  summable city_data.
Proof.
  unfold stage_score_of, bind, getitem, times, summable, scoring_keys.
  intros H.
  repeat match type of H with
    | context [Dict.get ?k (index_of city_data)] =>
        let x := fresh "x" in
        let E := fresh "E" in
        destruct (Dict.get k (index_of city_data)) as [ x | ] eqn:E;
        [ | discriminate H ];
        cbv [ret raise] in H;
        match type of H with
        | context [as_float ?y] =>
            let f := fresh "f" in
            let F := fresh "F" in
            destruct (as_float y) as [ f | ] eqn:F; [ | discriminate H ]
        end
    end.
  repeat constructor; do 2 eexists; (split; [ eassumption | eassumption ]).
Qed.

(** C2. The tier of a scored record is read off the unrounded weighted
    sum: when [find_city_score] keeps a record whose sum is [stage_score],
    the answer's tier is excellent for a sum of at least 120, good from 100
    up to 120, average from 80 up to 100, and poor below 80; 120.0, 100.0
    and 80.0 themselves are excellent, good and average. A record whose
    sum is 79.999999999999986 is poor although its displayed score
    is 80.0. *)
Theorem tier_by_raw_score :
  (forall lower data g city_data stage_score,
      get_default (rq_city_name data) "" <> "" ->
      first_match lower data g = Some city_data ->
      has_keys display_only_keys city_data ->
      stage_score_of city_data g = (Return stage_score, g) ->
      exists r,
        find_city_score lower data g = (Return (ScoreResult r, 200%nat), g)
        /\ internshipScore r = round1_float stage_score
        /\ (num_leb (NInt 120) (NFloat stage_score) = true ->
            recommendationLevel r = "excellent"
            /\ recommendation r = "Excellent choix")
        /\ (num_leb (NInt 100) (NFloat stage_score) = true ->
            num_ltb (NFloat stage_score) (NInt 120) = true ->
            recommendationLevel r = "good"
            /\ recommendation r = "Bon choix")
        /\ (num_leb (NInt 80) (NFloat stage_score) = true ->
            num_ltb (NFloat stage_score) (NInt 100) = true ->
            recommendationLevel r = "average"
            /\ recommendation r = "Choix correct")
        /\ (num_ltb (NFloat stage_score) (NInt 80) = true ->
            recommendationLevel r = "poor"
            /\ recommendation r = "À considérer avec précaution")
        /\ (stage_score = 120%float -> recommendationLevel r = "excellent")
        /\ (stage_score = 100%float -> recommendationLevel r = "good")
        /\ (stage_score = 80%float -> recommendationLevel r = "average"))
  /\ (exists r,
        find_city_score ascii_lower (ask "Quito") (loaded nearly_average)
        = (Return (ScoreResult r, 200%nat), loaded nearly_average)
        /\ stage_score_of (record_of "Quito" "Land" quito)
             (loaded nearly_average)
           = (Return 79.999999999999986%float, loaded nearly_average)
        /\ internshipScore r = 80%float
        /\ recommendationLevel r = "poor").
Proof.
  split.
  - intros lower data g city_data stage_score Hn Hm Hd Hs.
    rewrite (find_city_score_first_match lower data g city_data Hn Hm).
    destruct (scores_of_total city_data g) as [sc Hsc].
    { unfold has_keys. apply Forall_app. split; [ | exact Hd ].
      apply summable_has_keys. apply (stage_score_of_return _ _ _ _ Hs). }
    unfold bind, score_record, bind. rewrite Hs.
    destruct (recommend_level stage_score) as (R1 & R2 & R3 & R4).
    destruct (recommend stage_score) as [rec lvl] eqn:Er.
    rewrite Hsc. cbv [ret].
    eexists. split; [ reflexivity | ]. simpl.
    split; [ reflexivity | ].
    split; [ intros H; specialize (R1 H); inversion R1; auto | ].
    split; [ intros H1 H2; specialize (R2 H1 H2); inversion R2; auto | ].
    split; [ intros H1 H2; specialize (R3 H1 H2); inversion R3; auto | ].
    split; [ intros H; specialize (R4 H); inversion R4; auto | ].
    split; [ | split ]; intros E; subst stage_score.
    + specialize (R1 eq_refl). inversion R1; auto.
    + specialize (R2 eq_refl eq_refl). inversion R2; auto.
    + specialize (R3 eq_refl eq_refl). inversion R3; auto.
  - eexists. split; [ vm_compute; reflexivity | ].
    split; [ vm_compute; reflexivity | ]. split; reflexivity.
Qed.

Lemma tier_by_raw_score_witness :
  exists r,
    find_city_score ascii_lower (ask "Oslo") (loaded (scoring_exactly 480))
    = (Return (ScoreResult r, 200%nat), loaded (scoring_exactly 480))
    /\ internshipScore r = 120%float
    /\ recommendationLevel r = "excellent".
Proof.
  destruct (proj1 tier_by_raw_score ascii_lower (ask "Oslo")
              (loaded (scoring_exactly 480))
              (record_of "Oslo" "Land" (oslo 480)) 120%float)
    as (r & H & I & _ & _ & _ & _ & L & _).
  - discriminate.
  - reflexivity.
  - repeat constructor; discriminate.
  - vm_compute. reflexivity.
  - exists r. split; [ exact H | ]. split; [ exact I | exact (L eq_refl) ].
Defined.

(** C10. The score and the tier do not read [propertyPriceToIncomeRatio]
    and [trafficCommuteTimeIndex]: two answers of [find_city_score] for
    records that agree on the seven sub-indices of the weighted sum carry
    the same [internshipScore], [recommendation] and
    [recommendationLevel]. *)
Theorem score_ignores_display_only_indices :
  forall lower data1 data2 g1 g2 d1 d2 r1 r2,
    first_match lower data1 g1 = Some d1 ->
    first_match lower data2 g2 = Some d2 ->
    Forall (fun k => Dict.get k (index_of d1) = Dict.get k (index_of d2))
           scoring_keys ->
    find_city_score lower data1 g1 = (Return (ScoreResult r1, 200%nat), g1) ->
    find_city_score lower data2 g2 = (Return (ScoreResult r2, 200%nat), g2) ->
    internshipScore r1 = internshipScore r2
    /\ recommendation r1 = recommendation r2
    /\ recommendationLevel r1 = recommendationLevel r2.
Proof.
  intros lower data1 data2 g1 g2 d1 d2 r1 r2 M1 M2 A H1 H2.
  assert (N : forall data g d r,
             first_match lower data g = Some d ->
             find_city_score lower data g
             = (Return (ScoreResult r, 200%nat), g) ->
             score_record d g = (Return r, g)).
  { intros data g d r Hm H.
    destruct (String.eqb_spec (get_default (rq_city_name data) "") "")
      as [E | E].
    - unfold find_city_score in H. rewrite (proj2 (truthy_false _) E) in H.
      discriminate.
    - rewrite (find_city_score_first_match lower data g d E Hm) in H.
      unfold bind in H.
      pose proof (read_only_score_record d g) as R.
      destruct (score_record d g) as [[r' | e] g']; simpl in R; subst;
        inversion H; reflexivity. }
  apply (N _ _ _ _ M1) in H1. apply (N _ _ _ _ M2) in H2.
  destruct (score_record_return _ _ _ _ H1) as (s1 & S1 & _ & _ & I1 & R1 & L1).
  destruct (score_record_return _ _ _ _ H2) as (s2 & S2 & _ & _ & I2 & R2 & L2).
  pose proof (stage_score_of_ext d1 d2 g1 g2 A) as E.
  rewrite S1, S2 in E. simpl in E. inversion E; subst.
  rewrite I1, I2, R1, R2, L1, L2. auto.
Qed.

Lemma score_ignores_display_only_indices_witness :
  exists r1 r2,
    find_city_score ascii_lower (ask "Berlin")
      (loaded (Parsed (germany (NFloat 9.5) (NInt 30))))
    = (Return (ScoreResult r1, 200%nat), loaded (Parsed (germany (NFloat 9.5) (NInt 30))))
    /\ find_city_score ascii_lower (ask "Berlin")
         (loaded (Parsed (germany (NInt 2) (NFloat 71.4))))
       = (Return (ScoreResult r2, 200%nat), loaded (Parsed (germany (NInt 2) (NFloat 71.4))))
    /\ result_scores r1 <> result_scores r2
    /\ internshipScore r1 = internshipScore r2
    /\ recommendation r1 = recommendation r2
    /\ recommendationLevel r1 = recommendationLevel r2.
Proof.
  do 2 eexists.
  split; [ reflexivity | ]. split; [ reflexivity | ].
  split; [ vm_compute; discriminate | ].
  apply (score_ignores_display_only_indices ascii_lower
           (ask "Berlin") (ask "Berlin")
           (loaded (Parsed (germany (NFloat 9.5) (NInt 30))))
           (loaded (Parsed (germany (NInt 2) (NFloat 71.4))))
           (record_of "Berlin" "Germany" (berlin (NFloat 9.5) (NInt 30)))
           (record_of "Berlin" "Germany" (berlin (NInt 2) (NFloat 71.4))));
    first [ reflexivity | repeat constructor ].
Defined.

Lemma filter_none {A} (f : A -> bool) (l : list A) :
  (forall x, In x l -> f x = false) -> filter f l = [].
Proof.
  induction l as [ | a l IH ]; intros H; simpl.
  - reflexivity.
  - rewrite (H a (or_introl eq_refl)). apply IH.
    intros x I. apply H. right. exact I.
Qed.

(** C5. [find_city_score] tests in this order: an empty or absent
    [city_name] is a 400 whatever the globals hold; otherwise an empty
    [CITIES_DATA] is a 500; otherwise, when no record's city contains the
    name once both are lower-cased, a 404. *)
Theorem score_errors_in_order :
  forall lower data g,
    let city_name := get_default (rq_city_name data) "" in
    (city_name = "" ->
     find_city_score lower data g
     = (Return (ScoreError {| error := "city_name requis";
                              error_city := None;
                              error_country := None;
                              error_found := None |}, 400%nat), g))
    /\ (city_name <> "" -> CITIES_DATA g = [] ->
        find_city_score lower data g
        = (Return (ScoreError {| error := "Aucune donnée chargée";
                                 error_city := Some city_name;
                                 error_country := None;
                                 error_found := Some false |}, 500%nat), g))
    /\ (city_name <> "" -> CITIES_DATA g <> [] ->
        (forall key city_data,
            In (key, city_data) (CITIES_DATA g) ->
            contains (lower city_name) (lower (city_of city_data)) = false) ->
        find_city_score lower data g
        = (Return (ScoreError {| error := "Ville non trouvée";
                                 error_city := Some city_name;
                                 error_country := None;
                                 error_found := Some false |}, 404%nat), g)).
Proof.
  intros lower data g city_name. subst city_name.
  repeat split.
  - intros E. unfold find_city_score.
    rewrite (proj2 (truthy_false _) E). reflexivity.
  - intros E Hc. cbv [find_city_score search_city bind read ret].
    rewrite (proj2 (truthy_true _) E). cbn [negb]. cbv beta iota.
    rewrite Hc. reflexivity.
  - intros E Hc Hn. cbv [find_city_score search_city bind read ret].
    rewrite (proj2 (truthy_true _) E). cbn [negb]. cbv beta iota.
    destruct (CITIES_DATA g) as [ | kv rest ] eqn:Ec; [ congruence | ].
    cbn [Dict.is_empty]. cbv beta iota. rewrite Ec.
    rewrite filter_none; [ reflexivity | ].
    intros [key d] I. simpl. apply (Hn key d I).
Qed.

Lemma score_errors_in_order_witness :
  find_city_score ascii_lower (ask "") initial
  = (Return (ScoreError {| error := "city_name requis";
                           error_city := None;
                           error_country := None;
                           error_found := None |}, 400%nat), initial)
  /\ find_city_score ascii_lower (ask "Paris") initial
     = (Return (ScoreError {| error := "Aucune donnée chargée";
                              error_city := Some "Paris";
                              error_country := None;
                              error_found := Some false |}, 500%nat), initial)
  /\ find_city_score ascii_lower (ask "Paris")
       (loaded (Parsed (germany (NFloat 9.5) (NInt 30))))
     = (Return (ScoreError {| error := "Ville non trouvée";
                              error_city := Some "Paris";
                              error_country := None;
                              error_found := Some false |}, 404%nat),
        loaded (Parsed (germany (NFloat 9.5) (NInt 30)))).
Proof.
  split; [ | split ].
  - exact (proj1 (score_errors_in_order ascii_lower (ask "") initial) eq_refl).
  - apply (proj1 (proj2 (score_errors_in_order ascii_lower (ask "Paris")
                           initial))).
    + discriminate.
    + reflexivity.
  - apply (proj2 (proj2 (score_errors_in_order ascii_lower (ask "Paris")
                           (loaded (Parsed (germany (NFloat 9.5) (NInt 30))))))).
    + discriminate.
    + discriminate.
    + intros key city_data [E | []]. inversion E; subst. reflexivity.
Defined.

(** ** Purity of the queries *)

Lemma read_only_repeatable {A} (m : M A) : read_only m -> repeatable m.
Proof.
  intros H g. rewrite (read_only_run m g H).
  rewrite (read_only_run m g H). auto.
Qed.

(** C9. Each of the four handlers leaves the globals as it found them, and
    the same request sent again right after gets the same answer. *)
Theorem queries_are_pure :
  forall lower parse_float parse_int sort_unordered data args,
    repeatable (find_city_score lower data)
    /\ repeatable (list_cities lower parse_float parse_int sort_unordered
                               args)
    /\ repeatable get_countries
    /\ repeatable health_check.
Proof.
  intros lower parse_float parse_int sort_unordered data args.
  split; [ | split; [ | split ] ]; apply read_only_repeatable.
  - apply read_only_find_city_score.
  - apply read_only_list_cities.
  - apply read_only_get_countries.
  - apply read_only_health_check.
Qed.

(** ** Dictionaries: assignment *)

Lemma get_set_same {V} (k : string) (v : V) (d : Dict.t V) :
  Dict.get k (Dict.set k v d) = Some v.
Proof.
  induction d as [ | [k' v'] d IH ]; simpl.
  - rewrite String.eqb_refl. reflexivity.
  - destruct (String.eqb k k') eqn:E; simpl.
    + rewrite String.eqb_refl. reflexivity.
    + rewrite E. exact IH.
Qed.

Lemma set_set_same {V} (k : string) (v1 v2 : V) (d : Dict.t V) :
  Dict.set k v2 (Dict.set k v1 d) = Dict.set k v2 d.
Proof.
  induction d as [ | [k' v'] d IH ]; simpl.
  - rewrite String.eqb_refl. reflexivity.
  - destruct (String.eqb k k') eqn:E; simpl.
    + rewrite String.eqb_refl. reflexivity.
    + rewrite E. congruence.
Qed.

Lemma set_fresh {V} (k : string) (v : V) (d : Dict.t V) :
  ~ In k (Dict.keys d) -> Dict.set k v d = (d ++ [(k, v)])%list.
Proof.
  induction d as [ | [k' v'] d IH ]; simpl; intros H.
  - reflexivity.
  - destruct (String.eqb_spec k k') as [E | E].
    + exfalso. apply H. left. congruence.
    + rewrite IH; [ reflexivity | ]. intros I. apply H. right. exact I.
Qed.

Lemma update_app {V} (a b : list (string * V)) (d : Dict.t V) :
  Dict.update (a ++ b) d = Dict.update b (Dict.update a d).
Proof. unfold Dict.update. apply fold_left_app. Qed.

Lemma update_fresh {V} (kvs : list (string * V)) (d : Dict.t V) :
  NoDup (Dict.keys d ++ map fst kvs)%list ->
  Dict.update kvs d = (d ++ kvs)%list.
Proof.
  revert d. induction kvs as [ | [k v] kvs IH ]; intros d H.
  - simpl. rewrite app_nil_r. reflexivity.
  - change (Dict.update ((k, v) :: kvs) d)
      with (Dict.update kvs (Dict.set k v d)).
    simpl in H.
    assert (F : ~ In k (Dict.keys d)).
    { intros I. apply NoDup_remove_2 in H. apply H.
      apply in_or_app. left. exact I. }
    rewrite (set_fresh k v d F). rewrite IH.
    + rewrite <- app_assoc. reflexivity.
    + unfold Dict.keys in *. rewrite map_app. simpl.
      rewrite <- app_assoc. simpl.
      apply NoDup_Add with (a := k) (l := (map fst d ++ map fst kvs)%list).
      * apply Add_app.
      * split.
        -- apply NoDup_remove_1 in H. exact H.
        -- apply NoDup_remove_2 in H. exact H.
Qed.

Lemma set_get_same {V} (k : string) (v : V) (d : Dict.t V) :
  Dict.get k d = Some v -> Dict.set k v d = d.
Proof.
  induction d as [ | [k' v'] d IH ]; simpl; intros H.
  - discriminate.
  - destruct (String.eqb_spec k k') as [E | E].
    + inversion H; subst. reflexivity.
    + rewrite (IH H). reflexivity.
Qed.

(** ** Loading: facts *)

Lemma for_each_app {A} (a b : list A) (body : A -> M unit) (g : globals) :
  for_each (a ++ b) body g = (for_each a body ;; for_each b body) g.
Proof.
  revert g. induction a as [ | x a IH ]; intros g; simpl.
  - reflexivity.
  - unfold bind in *. destruct (body x g) as [[u | e] g1].
    + rewrite IH. reflexivity.
    + reflexivity.
Qed.

Lemma load_city_run (country : string) (city_data : city_json)
    (city_name : string) (acc : list string) (g : globals) :
  cd_city city_data = Some city_name ->
  Dict.get country (COUNTRIES g) = Some acc ->
  load_city country city_data g
  = (Return tt,
     {| CITIES_DATA :=
          Dict.set (city_key_of city_name country)
                   (record_of city_name country city_data) (CITIES_DATA g);
        COUNTRIES :=
          Dict.set country (acc ++ [city_name])%list (COUNTRIES g) |}).
Proof.
  intros Hc Ha.
  cbv [load_city append_COUNTRIES field bind read set_CITIES_DATA
       set_COUNTRIES getitem ret raise COUNTRIES CITIES_DATA].
  rewrite Hc. destruct g as [cd co]. simpl in Ha. rewrite Ha. reflexivity.
Qed.

Lemma load_cities_run (country : string) (cities : list city_json) :
  forall (g : globals) (acc : list string),
    Forall (fun city_data => cd_city city_data <> None) cities ->
    Dict.get country (COUNTRIES g) = Some acc ->
    for_each cities (load_city country) g
    = (Return tt,
       {| CITIES_DATA :=
            Dict.update
              (map (fun city_data =>
                      (city_key_of (city_name_of city_data) country,
                       record_of (city_name_of city_data) country city_data))
                   cities)
              (CITIES_DATA g);
          COUNTRIES :=
            Dict.set country (acc ++ map city_name_of cities)%list
                     (COUNTRIES g) |}).
Proof.
  induction cities as [ | c cities IH ]; intros g acc F Ha.
  - simpl. rewrite app_nil_r. rewrite (set_get_same _ _ _ Ha).
    destruct g. reflexivity.
  - inversion F as [ | ? ? Hc F' ]; subst.
    destruct (cd_city c) as [n | ] eqn:En; [ | congruence ].
    simpl for_each. unfold bind.
    rewrite (load_city_run country c n acc g En Ha).
    rewrite (IH _ (acc ++ [n])%list F').
    + assert (Hn : city_name_of c = n)
        by (unfold city_name_of; rewrite En; reflexivity).
      simpl. rewrite set_set_same, Hn, <- app_assoc. reflexivity.
    + simpl. apply get_set_same.
Qed.

Lemma load_country_run (country_data : country_json) (g : globals) :
  complete_group country_data ->
  load_country country_data g
  = (Return tt,
     {| CITIES_DATA :=
          Dict.update (group_records country_data) (CITIES_DATA g);
        COUNTRIES :=
          Dict.set (group_country country_data) (group_names country_data)
                   (COUNTRIES g) |}).
Proof.
  intros (Hc & Hl & F).
  unfold group_records, group_names, group_country, group_cities in *.
  destruct country_data as [[c | ] [l | ]]; simpl in *; try congruence.
  unfold load_country, bind. simpl.
  rewrite (load_cities_run c l _ [] F).
  - simpl. rewrite set_set_same. reflexivity.
  - simpl. apply get_set_same.
Qed.

Lemma load_countries_run (countries_list : list country_json) :
  forall g : globals,
    Forall complete_group countries_list ->
    for_each countries_list load_country g
    = (Return tt,
       {| CITIES_DATA :=
            Dict.update (flat_map group_records countries_list)
                        (CITIES_DATA g);
          COUNTRIES :=
            Dict.update (dataset_countries countries_list) (COUNTRIES g) |}).
Proof.
  induction countries_list as [ | cd l IH ]; intros g F.
  - destruct g. reflexivity.
  - inversion F as [ | ? ? Hc F' ]; subst.
    simpl for_each. unfold bind. rewrite (load_country_run cd g Hc).
    rewrite (IH _ F'). simpl. rewrite update_app. reflexivity.
Qed.

(** A file with every key loads, and the globals are the assignments of
    its groups in order. *)
Lemma load_complete (countries_list : list country_json) :
  Forall complete_group countries_list ->
  load_try (Parsed countries_list) initial
  = (Return tt,
     {| CITIES_DATA := Dict.update (flat_map group_records countries_list) [];
        COUNTRIES := Dict.update (dataset_countries countries_list) [] |}).
Proof.
  intros F. unfold load_try, bind. simpl.
  apply (load_countries_run countries_list initial F).
Qed.

Lemma loaded_complete (countries_list : list country_json) :
  Forall complete_group countries_list ->
  loaded (Parsed countries_list)
  = {| CITIES_DATA := Dict.update (flat_map group_records countries_list) [];
       COUNTRIES := Dict.update (dataset_countries countries_list) [] |}.
Proof.
  intros F. unfold loaded, load_cities_data, try_except.
  rewrite (load_complete _ F). reflexivity.
Qed.

Lemma insert_desc_perm {A K} (ltb : K -> K -> bool) (key : A -> K)
    (x : A) (l : list A) :
  Permutation (insert_desc ltb key x l) (x :: l).
Proof.
  induction l as [ | y l IH ]; simpl.
  - apply Permutation_refl.
  - destruct (ltb (key x) (key y)).
    + apply Permutation_trans with (y :: x :: l).
      * apply perm_skip. exact IH.
      * apply perm_swap.
    + apply Permutation_refl.
Qed.

Lemma sort_desc_perm {A K} (ltb : K -> K -> bool) (key : A -> K)
    (l : list A) :
  Permutation (sort_desc ltb key l) l.
Proof.
  induction l as [ | x l IH ]; simpl.
  - apply perm_nil.
  - apply Permutation_trans with (x :: sort_desc ltb key l).
    + apply insert_desc_perm.
    + apply perm_skip. exact IH.
Qed.


Lemma get_dataset_countries (countries_list : list country_json) :
  NoDup (map group_country countries_list) ->
  forall country,
    Dict.get country (dataset_countries countries_list)
    = citiesByCountry countries_list country.
Proof.
  induction countries_list as [ | cd l IH ]; intros N country.
  - reflexivity.
  - inversion N as [ | ? ? Hn N' ]; subst.
    unfold citiesByCountry. simpl.
    rewrite (String.eqb_sym (group_country cd) country).
    destruct (String.eqb_spec country (group_country cd)) as [E | E].
    + subst country.
      rewrite filter_none.
      * simpl. rewrite app_nil_r. reflexivity.
      * intros x I. apply String.eqb_neq. intros E. apply Hn.
        rewrite <- E. apply in_map. exact I.
    + apply (IH N').
Qed.

Lemma dataset_countries_keys (countries_list : list country_json) :
  map fst (dataset_countries countries_list)
  = map group_country countries_list.
Proof. unfold dataset_countries. rewrite map_map. reflexivity. Qed.

Lemma get_set_other {V} (k k' : string) (v : V) (d : Dict.t V) :
  k <> k' -> Dict.get k (Dict.set k' v d) = Dict.get k d.
Proof.
  intros N. induction d as [ | [k0 v0] d IH ]; simpl.
  - destruct (String.eqb_spec k k'); [ congruence | reflexivity ].
  - destruct (String.eqb_spec k' k0) as [E | E]; simpl.
    + subst k0. destruct (String.eqb_spec k k'); [ congruence | reflexivity ].
    + destruct (String.eqb k k0); [ reflexivity | exact IH ].
Qed.

(** After a run of assignments, a key holds what was assigned to it last. *)
Lemma get_update {V} (kvs : list (string * V)) (d : Dict.t V) (k : string) :
  Dict.get k (Dict.update kvs d)
  = match find (fun kv => String.eqb (fst kv) k) (rev kvs) with
    | Some kv => Some (snd kv)
    | None => Dict.get k d
    end.
Proof.
  induction kvs as [ | [k' v] kvs IH ] using rev_ind.
  - reflexivity.
  - rewrite update_app, rev_app_distr. simpl.
    destruct (String.eqb_spec k' k) as [E | E].
    + subst k'. apply get_set_same.
    + rewrite get_set_other by congruence. exact IH.
Qed.

Lemma find_dataset_countries (countries_list : list country_json)
    (country : string) :
  match find (fun kv => String.eqb (fst kv) country)
             (rev (dataset_countries countries_list)) with
  | Some kv => Some (snd kv)
  | None => None
  end
  = option_map group_names
      (find (fun cd => String.eqb (group_country cd) country)
            (rev countries_list)).
Proof.
  unfold dataset_countries. rewrite <- map_rev.
  induction (rev countries_list) as [ | cd l IH ]; simpl.
  - reflexivity.
  - destruct (String.eqb (group_country cd) country);
      [ reflexivity | exact IH ].
Qed.

Lemma COUNTRIES_loaded (countries_list : list country_json) :
  Forall complete_group countries_list ->
  NoDup (map group_country countries_list) ->
  COUNTRIES (loaded (Parsed countries_list))
  = dataset_countries countries_list.
Proof.
  intros F N. rewrite (loaded_complete countries_list F). simpl.
  apply (update_fresh (dataset_countries countries_list) []).
  simpl. rewrite dataset_countries_keys. exact N.
Qed.

Lemma CITIES_DATA_loaded (countries_list : list country_json) :
  Forall complete_group countries_list ->
  NoDup (dataset_keys countries_list) ->
  CITIES_DATA (loaded (Parsed countries_list))
  = flat_map group_records countries_list.
Proof.
  intros F K. rewrite (loaded_complete countries_list F). simpl.
  apply (update_fresh (flat_map group_records countries_list) []). exact K.
Qed.

(** ** Build *)

(** C8, as amended. When every group has its keys the load succeeds, and
    [COUNTRIES] maps each country name to the city names, in file order and
    with repetitions, of the last group that bears the name (a group
    without cities registers the empty list). When no country name heads two
    groups, that is every group: [COUNTRIES] lists the groups in file
    order, each with its names, as the specification describes. *)
Theorem countries_in_file_order :
  forall countries_list,
    Forall complete_group countries_list ->
    load_cities_data (Parsed countries_list) initial
    = (Return tt, loaded (Parsed countries_list))
    /\ (forall country,
          Dict.get country (COUNTRIES (loaded (Parsed countries_list)))
          = option_map group_names
              (find (fun cd => String.eqb (group_country cd) country)
                    (rev countries_list)))
    /\ (NoDup (map group_country countries_list) ->
        COUNTRIES (loaded (Parsed countries_list))
        = dataset_countries countries_list
        /\ forall country,
             Dict.get country (COUNTRIES (loaded (Parsed countries_list)))
             = citiesByCountry countries_list country).
Proof.
  intros l F. split; [ | split ].
  - unfold loaded, load_cities_data, try_except.
    rewrite (load_complete l F). reflexivity.
  - intros country. rewrite (loaded_complete l F). simpl.
    rewrite get_update. rewrite <- find_dataset_countries.
    destruct (find _ (rev (dataset_countries l))); reflexivity.
  - intros N. pose proof (COUNTRIES_loaded l F N) as C.
    split; [ exact C | ].
    intros country. rewrite C. apply get_dataset_countries. exact N.
Qed.

Lemma countries_in_file_order_witness :
  load_cities_data (Parsed berlin_twice) initial
  = (Return tt, loaded (Parsed berlin_twice))
  /\ COUNTRIES (loaded (Parsed berlin_twice))
     = [("Germany", ["Berlin"; "Berlin"])]
  /\ Dict.get "Germany" (COUNTRIES (loaded (Parsed germany_twice)))
     = Some ["Munich"].
Proof.
  assert (F1 : Forall complete_group berlin_twice)
    by (repeat constructor; simpl; discriminate).
  assert (F2 : Forall complete_group germany_twice)
    by (repeat constructor; simpl; discriminate).
  split; [ | split ].
  - exact (proj1 (countries_in_file_order berlin_twice F1)).
  - apply (proj2 (proj2 (countries_in_file_order berlin_twice F1))).
    repeat constructor. simpl. tauto.
  - exact (proj1 (proj2 (countries_in_file_order germany_twice F2))
             "Germany").
Defined.

(** C8 as stated fails when a country heads two groups: the second group
    resets the country's list, so the first group's names are gone. *)
Lemma countries_in_file_order_counterexample :
  Forall complete_group germany_twice
  /\ load_cities_data (Parsed germany_twice) initial
     = (Return tt, loaded (Parsed germany_twice))
  /\ citiesByCountry germany_twice "Germany" = Some ["Berlin"; "Munich"]
  /\ Dict.get "Germany" (COUNTRIES (loaded (Parsed germany_twice)))
     = Some ["Munich"]
  /\ Dict.get "Germany" (COUNTRIES (loaded (Parsed germany_twice)))
     <> citiesByCountry germany_twice "Germany".
Proof.
  split; [ | split; [ | split; [ | split ] ] ]; try reflexivity.
  - repeat constructor; simpl; discriminate.
  - discriminate.
Qed.





(** C4, as amended. When the file is missing or is not JSON, the load
    fails and both dictionaries stay empty. When the file parses and a
    group fails, nothing is undone: the globals stay as the failure found
    them; for a group without its ["country"] key after groups that have
    every key, the globals are those of loading the earlier groups
    alone. *)
Theorem failed_load_keeps_what_it_stored :
  (forall src,
      src = NoFile \/ src = BadJSON ->
      (exists e, load_try src initial = (Raise e, initial))
      /\ load_cities_data src initial = (Return tt, initial))
  /\ (forall src e g,
        load_try src initial = (Raise e, g) ->
        load_cities_data src initial = (Return tt, g))
  /\ (forall earlier country_data later,
        Forall complete_group earlier ->
        cj_country country_data = None ->
        load_try (Parsed (earlier ++ country_data :: later)) initial
        = (Raise (KeyError "country"), loaded (Parsed earlier))
        /\ loaded (Parsed (earlier ++ country_data :: later))
           = loaded (Parsed earlier)).
Proof.
  split; [ | split ].
  - intros src [E | E]; subst src; split; try reflexivity;
      eexists; reflexivity.
  - intros src e g H. unfold load_cities_data, try_except. rewrite H.
    reflexivity.
  - intros earlier cd later F Hc.
    assert (R : load_try (Parsed (earlier ++ cd :: later)) initial
                = (Raise (KeyError "country"), loaded (Parsed earlier))).
    { unfold load_try, bind. simpl. rewrite for_each_app. unfold bind.
      rewrite (load_countries_run earlier initial F).
      rewrite (loaded_complete earlier F). simpl.
      unfold bind, load_country, bind, field. rewrite Hc. reflexivity. }
    split; [ exact R | ].
    unfold loaded at 1. unfold load_cities_data, try_except. rewrite R.
    reflexivity.
Qed.

Lemma failed_load_keeps_what_it_stored_witness :
  ((exists e, load_try NoFile initial = (Raise e, initial))
   /\ load_cities_data NoFile initial = (Return tt, initial))
  /\ load_cities_data (Parsed broken_second) initial
     = (Return tt, loaded (Parsed [group "Germany" [town "Berlin" (NInt 180)]]))
  /\ (load_try (Parsed broken_second) initial
      = (Raise (KeyError "country"),
         loaded (Parsed [group "Germany" [town "Berlin" (NInt 180)]]))
      /\ loaded (Parsed broken_second)
         = loaded (Parsed [group "Germany" [town "Berlin" (NInt 180)]])).
Proof.
  split; [ | split ].
  - exact (proj1 failed_load_keeps_what_it_stored NoFile (or_introl eq_refl)).
  - exact (proj1 (proj2 failed_load_keeps_what_it_stored)
             (Parsed broken_second) (KeyError "country") _ eq_refl).
  - apply (proj2 (proj2 failed_load_keeps_what_it_stored)
             [group "Germany" [town "Berlin" (NInt 180)]]
             {| cj_country := None; cj_cities := Some [town "Paris" (NInt 150)] |}
             []).
    + repeat constructor; simpl; discriminate.
    + reflexivity.
Defined.

(** C4 as stated fails when a later group lacks a key: the load fails and
    the earlier group stays in both dictionaries. *)
Lemma failed_load_keeps_what_it_stored_counterexample :
  load_try (Parsed broken_second) initial
  = (Raise (KeyError "country"), loaded (Parsed broken_second))
  /\ Dict.keys (CITIES_DATA (loaded (Parsed broken_second)))
     = ["Berlin, Germany"]
  /\ COUNTRIES (loaded (Parsed broken_second)) = [("Germany", ["Berlin"])].
Proof. repeat split. Qed.

(** ** Sorting: facts *)

Section SortingFacts.
Context {A K : Type} (ltb : K -> K -> bool) (key : A -> K).
(** The keys that [<] orders: every integer, every number but a NaN. *)
Variable ordered : K -> Prop.
Hypothesis ltb_asym : forall a b, ltb a b = true -> ltb b a = false.
Hypothesis ltb_negtrans :
  forall a b c,
    ordered b -> ltb a b = false -> ltb b c = false -> ltb a c = false.

Local Abbreviation not_below := (fun x y : A => ltb (key x) (key y) = false).

Lemma insert_desc_sorted (x : A) (l : list A) :
  Forall (fun y => ordered (key y)) l ->
  StronglySorted not_below l ->
  StronglySorted not_below (insert_desc ltb key x l).
Proof.
  induction l as [ | y l IH ]; intros O S; simpl.
  - constructor; constructor.
  - inversion S as [ | ? ? S' F ]; subst.
    inversion O as [ | ? ? Oy O' ]; subst.
    destruct (ltb (key x) (key y)) eqn:E.
    + constructor; [ apply IH; assumption | ].
      apply (Permutation_Forall
               (Permutation_sym (insert_desc_perm ltb key x l))).
      constructor; [ apply ltb_asym; exact E | exact F ].
    + constructor; [ exact S | ].
      constructor; [ exact E | ].
      revert F. apply Forall_impl. intros z Hz.
      apply (ltb_negtrans _ _ _ Oy E Hz).
Qed.

Lemma sort_desc_sorted (l : list A) :
  Forall (fun y => ordered (key y)) l ->
  StronglySorted not_below (sort_desc ltb key l).
Proof.
  induction l as [ | x l IH ]; intros O; simpl.
  - constructor.
  - inversion O as [ | ? ? Ox O' ]; subst.
    apply insert_desc_sorted; [ | apply IH; exact O' ].
    apply (Permutation_Forall
             (Permutation_sym (sort_desc_perm ltb key l))).
    exact O'.
Qed.

Lemma insert_desc_tied (k : K) (x : A) (l : list A) :
  ordered k ->
  filter (tied ltb key k) (insert_desc ltb key x l)
  = filter (tied ltb key k) (x :: l).
Proof.
  intros Ok. induction l as [ | y l IH ]; [ reflexivity | ].
  cbn [insert_desc]. destruct (ltb (key x) (key y)) eqn:E;
    [ | reflexivity ].
  cbn [filter] in *. rewrite IH.
  destruct (tied ltb key k x) eqn:Tx; [ | reflexivity ].
  destruct (tied ltb key k y) eqn:Ty; [ | reflexivity ].
  exfalso. unfold tied in Tx, Ty.
  apply andb_true_iff in Tx. destruct Tx as [Tx _].
  apply andb_true_iff in Ty. destruct Ty as [_ Ty].
  apply negb_true_iff in Tx. apply negb_true_iff in Ty.
  rewrite (ltb_negtrans _ _ _ Ok Tx Ty) in E. discriminate.
Qed.

(** Stability: elements with one key keep the order they came in. *)
Lemma sort_desc_stable (k : K) (l : list A) :
  ordered k ->
  filter (tied ltb key k) (sort_desc ltb key l) = filter (tied ltb key k) l.
Proof.
  intros Ok. induction l as [ | x l IH ]; [ reflexivity | ].
  cbn [sort_desc fold_right]. rewrite (insert_desc_tied k x _ Ok).
  cbn [filter]. fold (sort_desc ltb key l). rewrite IH. reflexivity.
Qed.
End SortingFacts.

Lemma StronglySorted_firstn {A} (R : A -> A -> Prop) (n : nat) (l : list A) :
  StronglySorted R l -> StronglySorted R (firstn n l).
Proof.
  revert n. induction l as [ | x l IH ]; intros n S.
  - rewrite firstn_nil. constructor.
  - destruct n as [ | n ]; simpl; [ constructor | ].
    inversion S as [ | ? ? S' F ]; subst.
    constructor; [ apply IH; exact S' | ].
    rewrite Forall_forall in *. intros z I. apply F.
    rewrite <- (firstn_skipn n l). apply in_or_app. left. exact I.
Qed.

Lemma Forall_firstn_of {A} (P : A -> Prop) (n : nat) (l : list A) :
  Forall P l -> Forall P (firstn n l).
Proof.
  rewrite !Forall_forall. intros F z I. apply F.
  rewrite <- (firstn_skipn n l). apply in_or_app. left. exact I.
Qed.

(** ** ListCities *)

(** On records that carry the three sub-indices, the loop of [list_cities]
    is a filter by its tests and the projection of the specification. *)
Lemma list_filtered_run lower (country : string)
    (min_quality max_cost : float)
    (items : list (string * city_record)) (g : globals) :
  Forall (fun kv => has_keys listing_keys (snd kv)) items ->
  list_filtered lower country min_quality max_cost items g
  = (Return (map summarize
               (filter (kept lower country min_quality max_cost)
                       (map snd items))), g).
Proof.
  induction items as [ | [key data] rest IH ]; intros F.
  - reflexivity.
  - inversion F as [ | ? ? Hk F' ]; subst. specialize (IH F').
    simpl in Hk.
    destruct (has_keys_get _ _ "qualityOfLifeIndex" Hk) as [q Hq];
      [ simpl; tauto | ].
    destruct (has_keys_get _ _ "costOfLivingIndex" Hk) as [c Hc];
      [ simpl; tauto | ].
    destruct (has_keys_get _ _ "safetyIndex" Hk) as [s Hs];
      [ simpl; tauto | ].
    cbn [list_filtered map filter snd]. unfold kept at 1, in_country.
    unfold quality_of, cost_of. rewrite Hq, Hc. cbn [get_default].
    destruct (truthy country
              && negb (contains (lower country) (lower (country_of data))))
      eqn:Ec.
    + replace (negb (truthy country)
               || contains (lower country) (lower (country_of data)))
        with false.
      * exact IH.
      * apply andb_true_iff in Ec. destruct Ec as [E1 E2].
        apply negb_true_iff in E2. rewrite E1, E2. reflexivity.
    + replace (negb (truthy country)
               || contains (lower country) (lower (country_of data)))
        with true.
      * unfold bind at 1. rewrite (getitem_some _ _ _ g Hq).
        destruct (num_ltb q (NFloat min_quality)); cbn [negb andb];
          [ exact IH | ].
        unfold bind at 1. rewrite (getitem_some _ _ _ g Hc).
        destruct (num_ltb (NFloat max_cost) c); cbn [negb andb];
          [ exact IH | ].
        unfold bind at 1. rewrite (getitem_some _ _ _ g Hs).
        unfold bind at 1. rewrite IH. cbv [ret]. cbn [map].
        unfold summarize at 2, quality_of, cost_of, safety_of.
        rewrite Hq, Hc, Hs. reflexivity.
      * apply andb_false_iff in Ec. destruct Ec as [E | E].
        -- rewrite E. reflexivity.
        -- apply negb_false_iff in E. rewrite E. apply eq_sym, orb_true_r.
Qed.

Lemma slice_to_nonneg {A} (n : Z) (l : list A) :
  (0 <= n)%Z -> slice_to n l = firstn (Z.to_nat n) l.
Proof.
  intros H. unfold slice_to.
  destruct (Z.leb_spec 0 n); [ reflexivity | lia ].
Qed.

(** A slice [l[:n]] is a prefix of [l], whatever the sign of [n]. *)
Lemma slice_to_prefix {A} (n : Z) (l : list A) :
  exists m, slice_to n l = firstn m l.
Proof.
  unfold slice_to. destruct (0 <=? n)%Z; eexists; reflexivity.
Qed.

Lemma float_arg_some parse_float arg default f (g : globals) :
  arg_value parse_float arg default = Some f ->
  float_arg parse_float arg default g = (Return f, g).
Proof. intros H. unfold float_arg. rewrite H. reflexivity. Qed.

Lemma int_arg_some parse_int arg default n (g : globals) :
  arg_value parse_int arg default = Some n ->
  int_arg parse_int arg default g = (Return n, g).
Proof. intros H. unfold int_arg. rewrite H. reflexivity. Qed.

(** What [list_cities] answers when its three numeric parameters convert,
    on a non-empty [CITIES_DATA] whose records carry the three
    sub-indices. *)
Lemma list_cities_run lower parse_float parse_int sort_unordered
    (args : list_request) (g : globals) (min_quality max_cost : float)
    (limit : Z) :
  arg_value parse_float (arg_min_quality args) 0%float = Some min_quality ->
  arg_value parse_float (arg_max_cost args) 200%float = Some max_cost ->
  arg_value parse_int (arg_limit args) 20%Z = Some limit ->
  CITIES_DATA g <> [] ->
  Forall (fun kv => has_keys listing_keys (snd kv)) (CITIES_DATA g) ->
  list_cities lower parse_float parse_int sort_unordered args g
  = (let filtered :=
       slice_to limit
         (sort_by_quality sort_unordered
            (passing lower (get_default (arg_country args) "")
                     min_quality max_cost g)) in
     (Return (ListResult {| list_total := List.length filtered;
                            cities := filtered |}, 200%nat), g)).
Proof.
  intros Hq Hc Hl Hne F. unfold list_cities.
  unfold bind at 1. rewrite (float_arg_some _ _ _ _ g Hq).
  unfold bind at 1. rewrite (float_arg_some _ _ _ _ g Hc).
  unfold bind at 1. rewrite (int_arg_some _ _ _ _ g Hl).
  cbv [bind read ret].
  destruct (CITIES_DATA g) as [ | kv rest ] eqn:Ec; [ congruence | ].
  cbn [Dict.is_empty]. cbv beta iota. rewrite Ec.
  rewrite (list_filtered_run lower _ _ _ (kv :: rest) g F).
  unfold passing. rewrite Ec. reflexivity.
Qed.

(** Where no operand is a NaN, the tests of the loop are the filter
    predicate. *)
Lemma kept_passes lower (country : string) (min_quality max_cost : float)
    (data : city_record) :
  is_nan (NFloat min_quality) = false ->
  is_nan (NFloat max_cost) = false ->
  is_nan (quality_of data) = false ->
  is_nan (cost_of data) = false ->
  kept lower country min_quality max_cost data
  = passes lower country min_quality max_cost data.
Proof.
  intros N1 N2 N3 N4. unfold kept, passes.
  rewrite (num_ltb_negb_leb _ _ N3 N1), (num_ltb_negb_leb _ _ N2 N4).
  rewrite !negb_involutive. reflexivity.
Qed.

Lemma tied_same_quality (k : number) (x : city_summary) :
  is_nan k = false ->
  is_nan (summary_qualityOfLife x) = false ->
  tied num_ltb summary_qualityOfLife k x = same_quality k x.
Proof.
  intros Nk Nx. unfold tied, same_quality.
  rewrite (num_ltb_negb_leb _ _ Nx Nk), (num_ltb_negb_leb _ _ Nk Nx).
  rewrite !negb_involutive. reflexivity.
Qed.

(** Summaries none of whose [qualityOfLife] is a NaN are sorted by
    [sort_desc]. *)
Lemma sort_by_quality_ordered sort_unordered (l : list city_summary) :
  Forall (fun c => is_nan (summary_qualityOfLife c) = false) l ->
  sort_by_quality sort_unordered l = sort_desc num_ltb summary_qualityOfLife l.
Proof.
  intros F. unfold sort_by_quality.
  replace (existsb (fun x => is_nan (summary_qualityOfLife x)) l) with false;
    [ reflexivity | ].
  symmetry. induction F as [ | c l Hc F IH ]; simpl.
  - reflexivity.
  - rewrite Hc. exact IH.
Qed.

(** The summaries [list_cities] sorts come from stored records that the
    loop kept. *)
Lemma passing_from_records lower (country : string)
    (min_quality max_cost : float) (g : globals) (c : city_summary) :
  In c (passing lower country min_quality max_cost g) ->
  exists key data,
    In (key, data) (CITIES_DATA g)
    /\ kept lower country min_quality max_cost data = true
    /\ c = summarize data.
Proof.
  unfold passing. intros I.
  apply in_map_iff in I. destruct I as (data & Ec & I).
  apply filter_In in I. destruct I as [I P].
  apply in_map_iff in I. destruct I as ([key d] & Ed & I).
  simpl in Ed. subst d. exists key, data. auto.
Qed.

(** C6, as amended. When the three numeric parameters convert, on a
    non-empty [CITIES_DATA] whose records carry the three sub-indices,
    [list_cities] answers 200 with a slice of the sorted summaries of the
    records its loop kept. The list is no longer than a [limit] that is
    not negative. Every entry is the summary of a stored record that the
    loop kept, and that record satisfies the filter predicate when neither
    bound nor its quality of life or cost of living is a NaN. When no
    [qualityOfLife] to sort is a NaN the list is non-increasing, and entries
    with equal [qualityOfLife] come in iteration order. *)
Theorem listing_sorted_bounded_filtered :
  forall lower parse_float parse_int sort_unordered g args
         min_quality max_cost limit,
    arg_value parse_float (arg_min_quality args) 0%float = Some min_quality ->
    arg_value parse_float (arg_max_cost args) 200%float = Some max_cost ->
    arg_value parse_int (arg_limit args) 20%Z = Some limit ->
    CITIES_DATA g <> [] ->
    Forall (fun kv => has_keys listing_keys (snd kv)) (CITIES_DATA g) ->
    let country := get_default (arg_country args) "" in
    let summaries := passing lower country min_quality max_cost g in
    exists r,
      list_cities lower parse_float parse_int sort_unordered args g
      = (Return (ListResult r, 200%nat), g)
      /\ list_total r = List.length (cities r)
      /\ cities r = slice_to limit (sort_by_quality sort_unordered summaries)
      /\ ((0 <= limit)%Z -> (Z.of_nat (List.length (cities r)) <= limit)%Z)
      /\ ((forall l, Permutation l (sort_unordered l)) ->
          Forall (fun c =>
                    exists key data,
                      In (key, data) (CITIES_DATA g)
                      /\ c = summarize data
                      /\ kept lower country min_quality max_cost data = true
                      /\ (is_nan (NFloat min_quality) = false ->
                          is_nan (NFloat max_cost) = false ->
                          is_nan (quality_of data) = false ->
                          is_nan (cost_of data) = false ->
                          passes lower country min_quality max_cost data
                          = true))
                 (cities r))
      /\ (Forall (fun c => is_nan (summary_qualityOfLife c) = false)
                 summaries ->
          StronglySorted
            (fun a b =>
               num_leb (summary_qualityOfLife b) (summary_qualityOfLife a)
               = true)
            (cities r)
          /\ forall k,
               is_nan k = false ->
               exists later,
                 filter (same_quality k) summaries
                 = (filter (same_quality k) (cities r) ++ later)%list).
Proof.
  intros lower parse_float parse_int sort_unordered g args
         min_quality max_cost limit Hq Hc Hl Hne F country summaries.
  rewrite (list_cities_run lower parse_float parse_int sort_unordered args g
             min_quality max_cost limit Hq Hc Hl Hne F).
  cbv zeta. fold country. fold summaries.
  eexists. split; [ reflexivity | ]. cbn [list_total cities].
  split; [ reflexivity | ]. split; [ reflexivity | ].
  destruct (slice_to_prefix limit (sort_by_quality sort_unordered summaries))
    as [m Em].
  split; [ | split ].
  - intros L. rewrite (slice_to_nonneg limit _ L).
    pose proof (firstn_le_length (Z.to_nat limit)
                  (sort_by_quality sort_unordered summaries)).
    lia.
  - intros P. rewrite Em. apply Forall_firstn_of.
    assert (Ps : Permutation summaries
                   (sort_by_quality sort_unordered summaries)).
    { unfold sort_by_quality. destruct (existsb _ summaries).
      - apply P.
      - apply Permutation_sym. apply sort_desc_perm. }
    apply (Permutation_Forall Ps).
    rewrite Forall_forall. intros c I.
    destruct (passing_from_records _ _ _ _ _ _ I) as (key & data & Id & K & E).
    exists key, data.
    split; [ exact Id | ]. split; [ exact E | ]. split; [ exact K | ].
    intros N1 N2 N3 N4.
    rewrite <- (kept_passes lower country _ _ data N1 N2 N3 N4). exact K.
  - intros N. rewrite Em.
    rewrite (sort_by_quality_ordered sort_unordered summaries N).
    set (sorted := sort_desc num_ltb summary_qualityOfLife summaries).
    assert (Ns : Forall (fun c => is_nan (summary_qualityOfLife c) = false)
                        sorted).
    { apply (Permutation_Forall
               (Permutation_sym
                  (sort_desc_perm num_ltb summary_qualityOfLife summaries))).
      exact N. }
    split.
    + apply StronglySorted_firstn.
      pose proof (sort_desc_sorted num_ltb summary_qualityOfLife
                    (fun k => is_nan k = false)
                    num_ltb_asym num_ltb_negtrans summaries N) as S.
      fold sorted in S. clear - S Ns.
      induction S as [ | x l S IH Fx ]; constructor.
      * apply IH. inversion Ns; assumption.
      * inversion Ns as [ | ? ? Nx Nl ]; subst.
        rewrite Forall_forall in *. intros y Iy.
        specialize (Fx y Iy). cbv beta in Fx.
        rewrite (num_ltb_negb_leb _ _ Nx (Nl y Iy)) in Fx.
        apply negb_false_iff in Fx. exact Fx.
    + intros k Nk.
      exists (filter (same_quality k) (skipn m sorted)).
      rewrite <- filter_app, firstn_skipn.
      rewrite <- (filter_ext_in (tied num_ltb summary_qualityOfLife k)
                    (same_quality k) summaries).
      * rewrite <- (filter_ext_in (tied num_ltb summary_qualityOfLife k)
                      (same_quality k) sorted).
        -- symmetry.
           apply (sort_desc_stable num_ltb summary_qualityOfLife
                    (fun k => is_nan k = false) num_ltb_negtrans k summaries
                    Nk).
        -- intros x Ix. apply tied_same_quality; [ exact Nk | ].
           rewrite Forall_forall in Ns. exact (Ns x Ix).
      * intros x Ix. apply tied_same_quality; [ exact Nk | ].
        rewrite Forall_forall in N. exact (N x Ix).
Qed.

Lemma listing_sorted_bounded_filtered_witness :
  exists r,
    list_cities ascii_lower float_of_string int_of_string (fun l => l)
      (list_all "1") (loaded (Parsed two_towns))
    = (Return (ListResult r, 200%nat), loaded (Parsed two_towns))
    /\ cities r
       = [summarize
            (record_of "Berlin" "Germany" (town "Berlin" (NInt 180)))]
    /\ (Z.of_nat (List.length (cities r)) <= 1)%Z.
Proof.
  destruct (listing_sorted_bounded_filtered ascii_lower float_of_string
              int_of_string (fun l => l) (loaded (Parsed two_towns))
              (list_all "1") 0%float 200%float 1%Z)
    as (r & H & _ & C & L & _).
  - reflexivity.
  - reflexivity.
  - reflexivity.
  - discriminate.
  - repeat constructor; discriminate.
  - exists r. split; [ exact H | ]. split; [ | apply L; lia ].
    rewrite C. reflexivity.
Defined.

(** C6 as stated fails for a negative [limit] and for a [min_quality] that
    is a NaN. With [limit = -1] the slice drops the last entry and keeps
    the rest, one entry here, which is more than [limit]. With
    [min_quality = nan] no quality of life is below the bound, so every
    record is listed, and none has a quality of life that is at least the
    bound. *)
Lemma listing_sorted_bounded_filtered_counterexample :
  (exists r,
      list_cities ascii_lower float_of_string int_of_string (fun l => l)
        (list_all "-1") (loaded (Parsed two_towns))
      = (Return (ListResult r, 200%nat), loaded (Parsed two_towns))
      /\ cities r
         = [summarize
              (record_of "Berlin" "Germany" (town "Berlin" (NInt 180)))]
      /\ (Z.of_nat (List.length (cities r)) > -1)%Z)
  /\ (exists r,
        list_cities ascii_lower float_of_string int_of_string (fun l => l)
          (list_above "nan") (loaded (Parsed two_towns))
        = (Return (ListResult r, 200%nat), loaded (Parsed two_towns))
        /\ cities r
           = [summarize
                (record_of "Berlin" "Germany" (town "Berlin" (NInt 180)));
              summarize
                (record_of "Bonn" "Germany" (town "Bonn" (NInt 150)))]
        /\ passes ascii_lower "" nan 200
             (record_of "Berlin" "Germany" (town "Berlin" (NInt 180)))
           = false
        /\ passes ascii_lower "" nan 200
             (record_of "Bonn" "Germany" (town "Bonn" (NInt 150)))
           = false).
Proof.
  split.
  - eexists. split; [ vm_compute; reflexivity | ].
    split; [ reflexivity | simpl; lia ].
  - eexists. split; [ vm_compute; reflexivity | ].
    split; [ reflexivity | ]. split; reflexivity.
Qed.

Lemma list_filtered_below lower (country : string)
    (min_quality max_cost : float)
    (items : list (string * city_record)) (g : globals) :
  Forall (fun kv => exists q,
              Dict.get "qualityOfLifeIndex" (index_of (snd kv)) = Some q
              /\ num_ltb q (NFloat min_quality) = true) items ->
  list_filtered lower country min_quality max_cost items g = (Return [], g).
Proof.
  induction items as [ | [key data] rest IH ]; intros F.
  - reflexivity.
  - inversion F as [ | ? ? (q & Hq & Lq) F' ]; subst. simpl in Hq.
    cbn [list_filtered].
    destruct (truthy country
              && negb (contains (lower country) (lower (country_of data)))).
    + apply IH. exact F'.
    + unfold bind at 1. rewrite (getitem_some _ _ _ g Hq).
      rewrite Lq. apply IH. exact F'.
Qed.

(** C7, as amended. On a non-empty [CITIES_DATA] in which every record has
    a quality of life index below 999, [list_cities] with
    [min_quality = 999], whatever its other parameters convert to, answers
    200 with [total] 0 and no city. *)
Theorem nothing_listed_at_999 :
  forall lower parse_float parse_int sort_unordered g args max_cost limit,
    CITIES_DATA g <> [] ->
    arg_value parse_float (arg_min_quality args) 0%float = Some 999%float ->
    arg_value parse_float (arg_max_cost args) 200%float = Some max_cost ->
    arg_value parse_int (arg_limit args) 20%Z = Some limit ->
    Forall (fun kv => exists q,
                Dict.get "qualityOfLifeIndex" (index_of (snd kv)) = Some q
                /\ num_ltb q (NFloat 999) = true) (CITIES_DATA g) ->
    list_cities lower parse_float parse_int sort_unordered args g
    = (Return (ListResult {| list_total := 0; cities := [] |}, 200%nat), g).
Proof.
  intros lower parse_float parse_int sort_unordered g args max_cost limit
         Hne Hq Hc Hl F.
  unfold list_cities.
  unfold bind at 1. rewrite (float_arg_some _ _ _ _ g Hq).
  unfold bind at 1. rewrite (float_arg_some _ _ _ _ g Hc).
  unfold bind at 1. rewrite (int_arg_some _ _ _ _ g Hl).
  cbv [bind read ret].
  destruct (CITIES_DATA g) as [ | kv rest ] eqn:Ec; [ congruence | ].
  cbn [Dict.is_empty]. cbv beta iota. rewrite Ec.
  rewrite (list_filtered_below lower _ _ _ _ g F).
  unfold sort_by_quality. cbn [existsb sort_desc fold_right].
  unfold slice_to.
  destruct (0 <=? limit)%Z; rewrite firstn_nil; reflexivity.
Qed.

Lemma nothing_listed_at_999_witness :
  list_cities ascii_lower float_of_string int_of_string (fun l => l)
    (list_above "999") (loaded (Parsed two_towns))
  = (Return (ListResult {| list_total := 0; cities := [] |}, 200%nat),
     loaded (Parsed two_towns)).
Proof.
  apply (nothing_listed_at_999 ascii_lower float_of_string int_of_string
           (fun l => l) (loaded (Parsed two_towns)) (list_above "999")
           200%float 20%Z).
  - discriminate.
  - reflexivity.
  - reflexivity.
  - reflexivity.
  - repeat constructor; eexists; (split; [ reflexivity | reflexivity ]).
Defined.

(** C7 as stated fails on a record whose quality of life index is 999 or
    more: it passes the filter and is listed. *)
Lemma nothing_listed_at_999_counterexample :
  CITIES_DATA (loaded (Parsed high_town)) <> []
  /\ list_cities ascii_lower float_of_string int_of_string (fun l => l)
       (list_above "999") (loaded (Parsed high_town))
     = (Return
          (ListResult
             {| list_total := 1;
                cities := [summarize
                             (record_of "Eden" "Utopia"
                                        (town "Eden" (NInt 1000)))]
             |}, 200%nat),
        loaded (Parsed high_town)).
Proof. split; [ discriminate | vm_compute; reflexivity ]. Qed.


(** * Further properties *)

(** ** Scoring: what an answer tells *)

Lemma score_record_names (city_data : city_record) (g g' : globals)
    (r : score_result) :
  score_record city_data g = (Return r, g') ->
  result_city r = city_of city_data
  /\ result_country r = country_of city_data.
Proof.
  unfold score_record, bind. intros H.
  destruct (stage_score_of city_data g) as [[s | e] g1]; [ | discriminate ].
  destruct (recommend s) as [rec lvl].
  destruct (scores_of city_data g1) as [[sc | e] g2]; [ | discriminate ].
  inversion H; subst. simpl. auto.
Qed.

(** A 200 of [find_city_score] is the score of the first match. *)
Lemma find_city_score_result lower (data : score_request) (g g' : globals)
    (r : score_result) (code : nat) :
  find_city_score lower data g = (Return (ScoreResult r, code), g') ->
  get_default (rq_city_name data) "" <> ""
  /\ code = 200%nat
  /\ exists city_data,
       first_match lower data g = Some city_data
       /\ score_record city_data g = (Return r, g').
Proof.
  intros H.
  destruct (String.eqb_spec (get_default (rq_city_name data) "") "")
    as [E | E].
  { unfold find_city_score in H. rewrite (proj2 (truthy_false _) E) in H.
    discriminate. }
  split; [ exact E | ].
  revert H. unfold first_match.
  cbv [find_city_score search_city bind read ret].
  rewrite (proj2 (truthy_true _) E). cbn [negb]. cbv beta iota.
  destruct (CITIES_DATA g) as [ | kv rest ] eqn:Ec; [ discriminate | ].
  cbn [Dict.is_empty]. cbv beta iota. rewrite Ec.
  destruct (filter _ (kv :: rest)) as [ | m ms ]; [ discriminate | ].
  destruct (truthy (get_default (rq_country data) "")).
  - destruct (filter _ (m :: ms)) as [ | [key d] l ]; [ discriminate | ].
    destruct (score_record d g) as [[a | e] g1] eqn:Es; [ | discriminate ].
    intros H. inversion H; subst. split; [ reflexivity | ].
    exists d. split; [ reflexivity | exact Es ].
  - destruct m as [key d].
    destruct (score_record d g) as [[a | e] g1] eqn:Es; [ | discriminate ].
    intros H. inversion H; subst. split; [ reflexivity | ].
    exists d. split; [ reflexivity | exact Es ].
Qed.

Lemma hd_error_filter {A} (f : A -> bool) (l : list A) (x : A) :
  hd_error (filter f l) = Some x -> In x l /\ f x = true.
Proof.
  intros H. apply filter_In.
  destruct (filter f l) as [ | y l' ]; [ discriminate | ].
  inversion H; subst. left. reflexivity.
Qed.

Lemma first_match_in lower (data : score_request) (g : globals)
    (city_data : city_record) :
  first_match lower data g = Some city_data ->
  (exists key, In (key, city_data) (CITIES_DATA g))
  /\ contains (lower (get_default (rq_city_name data) ""))
              (lower (city_of city_data)) = true
  /\ (get_default (rq_country data) "" <> "" ->
      contains (lower (get_default (rq_country data) ""))
               (lower (country_of city_data)) = true).
Proof.
  unfold first_match. intros H.
  destruct (hd_error _) as [[key d] | ] eqn:Eh; [ | discriminate ].
  simpl in H. inversion H; subst d.
  destruct (truthy (get_default (rq_country data) "")) eqn:Et.
  - apply hd_error_filter in Eh. destruct Eh as [I Hc].
    apply filter_In in I. destruct I as [I Hn]. simpl in *.
    split; [ exists key; exact I | ]. split; [ exact Hn | ].
    intros _. exact Hc.
  - apply hd_error_filter in Eh. destruct Eh as [I Hn]. simpl in *.
    split; [ exists key; exact I | ]. split; [ exact Hn | ].
    intros N. apply truthy_true in N. congruence.
Qed.

(** X1. A 200 of [find_city_score] describes a stored record whose city
    contains the requested name and, when a country was given, whose
    country contains it (both compared lower-cased); the request had a
    name and the globals are untouched. *)
Theorem answer_matches_request :
  forall lower data g g' r code,
    find_city_score lower data g = (Return (ScoreResult r, code), g') ->
    code = 200%nat
    /\ g' = g
    /\ found r = true
    /\ get_default (rq_city_name data) "" <> ""
    /\ (exists key city_data,
          In (key, city_data) (CITIES_DATA g)
          /\ result_city r = city_of city_data
          /\ result_country r = country_of city_data)
    /\ contains (lower (get_default (rq_city_name data) ""))
                (lower (result_city r)) = true
    /\ (get_default (rq_country data) "" <> "" ->
        contains (lower (get_default (rq_country data) ""))
                 (lower (result_country r)) = true).
Proof.
  intros lower data g g' r code H.
  destruct (find_city_score_result _ _ _ _ _ _ H) as (N & C & d & Hm & Hs).
  destruct (score_record_names _ _ _ _ Hs) as [Ec Eo].
  destruct (score_record_return _ _ _ _ Hs) as (s & _ & Eg & Hf & _).
  destruct (first_match_in _ _ _ _ Hm) as ((key & I) & Hn & Hc).
  rewrite Ec, Eo. repeat split; auto.
  exists key, d. auto.
Qed.

Lemma answer_matches_request_witness :
  exists r,
    find_city_score ascii_lower (ask "BERL") (loaded (Parsed (germany (NFloat 9.5) (NInt 30))))
    = (Return (ScoreResult r, 200%nat), loaded (Parsed (germany (NFloat 9.5) (NInt 30))))
    /\ contains (ascii_lower "BERL") (ascii_lower (result_city r)) = true.
Proof.
  pose proof (answer_matches_request ascii_lower (ask "BERL")
                (loaded (Parsed (germany (NFloat 9.5) (NInt 30)))) _ _ 200%nat eq_refl) as W.
  eexists. split; [ reflexivity | ].
  exact (proj1 (proj2 (proj2 (proj2 (proj2 (proj2 W)))))).
Defined.

(** ** Scoring: missing sub-indices and operands that do not fit *)

Ltac run_score_record :=
  unfold score_record, stage_score_of, scores_of, bind, getitem, times;
  cbv [ret raise];
  repeat (match goal with
          | H : Dict.get ?k' ?d = _ |- context [Dict.get ?k' ?d] => rewrite H
          | H : as_float ?x = _ |- context [as_float ?x] => rewrite H
          end; cbv beta iota);
  try destruct (recommend _); reflexivity.

Ltac key_missing k :=
  right; left; exists k;
  split; [ simpl; tauto | ];
  split; [ assumption | ];
  run_score_record.

Ltac too_large k H :=
  right; right; exists k; eexists;
  split; [ simpl; tauto | ];
  split; [ eassumption | ];
  split; [ exact H | ];
  run_score_record.

(** [score_record] either answers, on a record with the nine sub-indices
    whose operands fit, or raises the [KeyError] of a sub-index that is
    absent, or the [OverflowError] of an operand that does not fit. *)
Lemma score_record_outcome (city_data : city_record) (g : globals) :
  (summable city_data
   /\ has_keys display_only_keys city_data
   /\ exists r, score_record city_data g = (Return r, g))
  \/ (exists k,
        In k (scoring_keys ++ display_only_keys)
        /\ Dict.get k (index_of city_data) = None
        /\ score_record city_data g = (Raise (KeyError k), g))
  \/ (exists k x,
        In k scoring_keys
        /\ Dict.get k (index_of city_data) = Some x
        /\ as_float (operand_of k x) = None
        /\ score_record city_data g = (Raise OverflowError, g)).
Proof.
  destruct (Dict.get "qualityOfLifeIndex" (index_of city_data)) as [ q | ]
    eqn:Hq; [ | key_missing "qualityOfLifeIndex" ].
  destruct (as_float q) as [ fq | ] eqn:Fq;
    [ | too_large "qualityOfLifeIndex" Fq ].
  destruct (Dict.get "safetyIndex" (index_of city_data)) as [ s | ] eqn:Hs;
    [ | key_missing "safetyIndex" ].
  destruct (as_float s) as [ fs | ] eqn:Fs; [ | too_large "safetyIndex" Fs ].
  destruct (Dict.get "purchasingPowerIndex" (index_of city_data)) as [ p | ]
    eqn:Hp; [ | key_missing "purchasingPowerIndex" ].
  destruct (as_float p) as [ fp | ] eqn:Fp;
    [ | too_large "purchasingPowerIndex" Fp ].
  destruct (Dict.get "costOfLivingIndex" (index_of city_data)) as [ c | ]
    eqn:Hc; [ | key_missing "costOfLivingIndex" ].
  destruct (as_float (hundred_minus c)) as [ fc | ] eqn:Fc;
    [ | too_large "costOfLivingIndex" Fc ].
  destruct (Dict.get "healthCareIndex" (index_of city_data)) as [ h | ]
    eqn:Hh; [ | key_missing "healthCareIndex" ].
  destruct (as_float h) as [ fh | ] eqn:Fh;
    [ | too_large "healthCareIndex" Fh ].
  destruct (Dict.get "pollutionIndex" (index_of city_data)) as [ po | ]
    eqn:Hpo; [ | key_missing "pollutionIndex" ].
  destruct (as_float (hundred_minus po)) as [ fpo | ] eqn:Fpo;
    [ | too_large "pollutionIndex" Fpo ].
  destruct (Dict.get "climateIndex" (index_of city_data)) as [ cl | ]
    eqn:Hcl; [ | key_missing "climateIndex" ].
  destruct (as_float cl) as [ fcl | ] eqn:Fcl;
    [ | too_large "climateIndex" Fcl ].
  destruct (Dict.get "propertyPriceToIncomeRatio" (index_of city_data))
    eqn:Hpp; [ | key_missing "propertyPriceToIncomeRatio" ].
  destruct (Dict.get "trafficCommuteTimeIndex" (index_of city_data))
    eqn:Htc; [ | key_missing "trafficCommuteTimeIndex" ].
  left.
  assert (S : summable city_data).
  { unfold summable, scoring_keys.
    repeat constructor; do 2 eexists; (split; [ eassumption | ]);
      eassumption. }
  assert (D : has_keys display_only_keys city_data).
  { unfold has_keys. simpl. repeat constructor; congruence. }
  split; [ exact S | ]. split; [ exact D | ].
  apply score_record_total; assumption.
Qed.

Lemma has_keys_not_none (ks : list string) (city_data : city_record)
    (k : string) :
  has_keys ks city_data -> In k ks ->
  Dict.get k (index_of city_data) <> None.
Proof.
  unfold has_keys. rewrite Forall_forall. intros H I. apply H. exact I.
Qed.

Lemma summable_not_none (city_data : city_record) (k : string) (x : number) :
  summable city_data -> In k scoring_keys ->
  Dict.get k (index_of city_data) = Some x ->
  as_float (operand_of k x) <> None.
Proof.
  intros S I H. destruct (summable_get _ _ S I) as (x' & f & Hx & Hf).
  rewrite H in Hx. inversion Hx; subst. congruence.
Qed.

(** X2. Once [find_city_score] has kept a record, it answers 200 exactly
    when the record carries all nine sub-indices, the two that are only
    displayed included, and no operand of the weighted sum is an [int] too
    large for a float; otherwise it raises the [KeyError] of a sub-index
    the record lacks or the [OverflowError] of an operand that does not
    fit, and the globals are untouched. *)
Theorem scored_iff_nine_indices :
  forall lower data g city_data,
    get_default (rq_city_name data) "" <> "" ->
    first_match lower data g = Some city_data ->
    ((exists r,
        find_city_score lower data g = (Return (ScoreResult r, 200%nat), g))
     <-> summable city_data /\ has_keys display_only_keys city_data)
    /\ (~ (summable city_data /\ has_keys display_only_keys city_data) ->
        (exists k,
            In k (scoring_keys ++ display_only_keys)
            /\ Dict.get k (index_of city_data) = None
            /\ find_city_score lower data g = (Raise (KeyError k), g))
        \/ (exists k x,
              In k scoring_keys
              /\ Dict.get k (index_of city_data) = Some x
              /\ as_float (operand_of k x) = None
              /\ find_city_score lower data g = (Raise OverflowError, g))).
Proof.
  intros lower data g d N Hm.
  rewrite (find_city_score_first_match lower data g d N Hm). unfold bind.
  destruct (score_record_outcome d g)
    as [(S & K & r & Hr) | [(k & I & Hk & Hr) | (k & x & I & Hk & Hx & Hr)]];
    rewrite Hr.
  - split.
    + split; [ intros _; auto | intros _; exists r; reflexivity ].
    + intros NK. exfalso. auto.
  - assert (NK : ~ (summable d /\ has_keys display_only_keys d)).
    { intros [S K]. apply (has_keys_not_none (scoring_keys ++ display_only_keys)
                             d k); [ | exact I | exact Hk ].
      unfold has_keys. apply Forall_app.
      split; [ apply summable_has_keys; exact S | exact K ]. }
    split.
    + split; [ intros (r & Hr'); discriminate | intros K; contradiction ].
    + intros _. left. exists k. auto.
  - assert (NK : ~ (summable d /\ has_keys display_only_keys d)).
    { intros [S K]. apply (summable_not_none d k x S I Hk). exact Hx. }
    split.
    + split; [ intros (r & Hr'); discriminate | intros K; contradiction ].
    + intros _. right. exists k, x. auto.
Qed.

Lemma scored_iff_nine_indices_witness :
  (exists k,
      In k (scoring_keys ++ display_only_keys)
      /\ Dict.get k
           (index_of (record_of "Berlin" "Germany" (town "Berlin" (NInt 180))))
         = None
      /\ find_city_score ascii_lower (ask "Berlin") (loaded (Parsed two_towns))
         = (Raise (KeyError k), loaded (Parsed two_towns)))
  \/ (exists k x,
        In k scoring_keys
        /\ Dict.get k
             (index_of
                (record_of "Berlin" "Germany" (town "Berlin" (NInt 180))))
           = Some x
        /\ as_float (operand_of k x) = None
        /\ find_city_score ascii_lower (ask "Berlin")
             (loaded (Parsed two_towns))
           = (Raise OverflowError, loaded (Parsed two_towns))).
Proof.
  apply (proj2 (scored_iff_nine_indices ascii_lower (ask "Berlin")
                  (loaded (Parsed two_towns))
                  (record_of "Berlin" "Germany" (town "Berlin" (NInt 180)))
                  ltac:(discriminate) eq_refl)).
  intros [S _].
  apply (has_keys_not_none _ _ "pollutionIndex" (summable_has_keys _ S)).
  - simpl. tauto.
  - reflexivity.
Defined.

(** ** Searching *)

Lemma prefix_refl (s : string) : String.prefix s s = true.
Proof.
  induction s as [ | c s IH ]; simpl.
  - reflexivity.
  - destruct (ascii_dec c c); [ exact IH | congruence ].
Qed.

Lemma contains_refl (s : string) : contains s s = true.
Proof. destruct s; simpl; [ reflexivity | ]. rewrite prefix_refl.
  destruct (ascii_dec a a); [ reflexivity | congruence ].
Qed.

Lemma hd_error_filter_some {A} (f : A -> bool) (l : list A) (x : A) :
  In x l -> f x = true -> exists y, hd_error (filter f l) = Some y.
Proof.
  intros I H. assert (F : In x (filter f l)) by (apply filter_In; auto).
  destruct (filter f l) as [ | y l' ]; [ contradiction | ].
  exists y. reflexivity.
Qed.

(** X3. Asking for the exact city name of a stored record, with no
    country, is never a 400, a 500 or a 404: a record whose city contains
    the name is kept (the first in iteration order, not necessarily the one
    asked for), and the answer is its score, or the [KeyError] of a
    sub-index it lacks, or the [OverflowError] of a sub-index of it that is
    an [int] too large for a float. *)
Theorem stored_city_is_found :
  forall lower g key city_data,
    In (key, city_data) (CITIES_DATA g) ->
    city_of city_data <> "" ->
    exists kept,
      first_match lower (ask (city_of city_data)) g = Some kept
      /\ contains (lower (city_of city_data)) (lower (city_of kept)) = true
      /\ ((exists r,
             find_city_score lower (ask (city_of city_data)) g
             = (Return (ScoreResult r, 200%nat), g)
             /\ result_city r = city_of kept)
          \/ (exists k,
                Dict.get k (index_of kept) = None
                /\ find_city_score lower (ask (city_of city_data)) g
                   = (Raise (KeyError k), g))
          \/ (exists k x,
                Dict.get k (index_of kept) = Some x
                /\ as_float (operand_of k x) = None
                /\ find_city_score lower (ask (city_of city_data)) g
                   = (Raise OverflowError, g))).
Proof.
  intros lower g key d I N.
  assert (Hm : exists kept,
             first_match lower (ask (city_of d)) g = Some kept).
  { unfold first_match. simpl.
    destruct (hd_error_filter_some
                (fun m => contains (lower (city_of d))
                                   (lower (city_of (snd m))))
                (CITIES_DATA g) (key, d) I (contains_refl _)) as [[k' y] Hy].
    rewrite Hy. exists y. reflexivity. }
  destruct Hm as [kept Hm]. exists kept.
  split; [ exact Hm | ].
  split; [ apply (first_match_in _ _ _ _ Hm) | ].
  rewrite (find_city_score_first_match lower (ask (city_of d)) g kept N Hm).
  unfold bind.
  destruct (score_record_outcome kept g)
    as [(_ & _ & r & Hr) | [(k & _ & Hk & Hr) | (k & x & _ & Hk & Hx & Hr)]];
    rewrite Hr.
  - left. exists r. split; [ reflexivity | ].
    apply (score_record_names _ _ _ _ Hr).
  - right. left. exists k. auto.
  - right. right. exists k, x. auto.
Qed.

Lemma stored_city_is_found_witness :
  exists kept,
    first_match ascii_lower (ask "Bonn") (loaded (Parsed two_towns))
    = Some kept
    /\ contains (ascii_lower "Bonn") (ascii_lower (city_of kept)) = true.
Proof.
  destruct (stored_city_is_found ascii_lower (loaded (Parsed two_towns))
              "Bonn, Germany"
              (record_of "Bonn" "Germany" (town "Bonn" (NInt 150))))
    as (kept & Hm & Hc & _).
  - left. reflexivity.
  - discriminate.
  - exists kept. split; [ exact Hm | exact Hc ].
Defined.

(** X4. On a request whose [city_name] and [country] are strings or
    absent, [find_city_score] has six outcomes and no other: a 400, 404 or
    500 with an error body that does not say [found: true], a 200 with a
    result that says [found: true], the [KeyError] of one of the nine
    sub-indices, or an [OverflowError]; none of them changes the
    globals. *)
Theorem score_answer_shapes :
  forall lower data g,
    (exists e code,
        find_city_score lower data g = (Return (ScoreError e, code), g)
        /\ In code [400%nat; 404%nat; 500%nat]
        /\ error_found e <> Some true)
    \/ (exists r,
          find_city_score lower data g = (Return (ScoreResult r, 200%nat), g)
          /\ found r = true)
    \/ (exists k,
          In k (scoring_keys ++ display_only_keys)
          /\ find_city_score lower data g = (Raise (KeyError k), g))
    \/ find_city_score lower data g = (Raise OverflowError, g).
Proof.
  intros lower data g.
  assert (S : forall d,
             (exists r,
                 (r <- score_record d ;; ret (ScoreResult r, 200%nat)) g
                 = (Return (ScoreResult r, 200%nat), g)
                 /\ found r = true)
             \/ (exists k,
                   In k (scoring_keys ++ display_only_keys)
                   /\ (r <- score_record d ;; ret (ScoreResult r, 200%nat)) g
                      = (Raise (KeyError k), g))
             \/ (r <- score_record d ;; ret (ScoreResult r, 200%nat)) g
                = (Raise OverflowError, g)).
  { intros d. unfold bind.
    destruct (score_record_outcome d g)
      as [(_ & _ & r & Hr) | [(k & I & _ & Hr) | (k & x & _ & _ & _ & Hr)]];
      rewrite Hr.
    - left. exists r. split; [ reflexivity | ].
      destruct (score_record_return _ _ _ _ Hr) as (s & _ & _ & Hf & _).
      exact Hf.
    - right. left. exists k. auto.
    - right. right. reflexivity. }
  remember (find_city_score lower data g) as out eqn:Eo.
  cbv [find_city_score search_city bind read ret] in Eo.
  destruct (truthy (get_default (rq_city_name data) "")); cbn [negb] in Eo;
    cbv beta iota in Eo.
  2: { left. subst out. do 2 eexists. split; [ reflexivity | ].
       split; [ simpl; tauto | discriminate ]. }
  destruct (CITIES_DATA g) as [ | kv rest ] eqn:Ec;
    cbn [Dict.is_empty] in Eo; cbv beta iota in Eo.
  { left. subst out. do 2 eexists. split; [ reflexivity | ].
    split; [ simpl; tauto | discriminate ]. }
  rewrite Ec in Eo.
  destruct (filter _ (kv :: rest)) as [ | m ms ].
  { left. subst out. do 2 eexists. split; [ reflexivity | ].
    split; [ simpl; tauto | discriminate ]. }
  destruct (truthy (get_default (rq_country data) "")).
  - destruct (filter _ (m :: ms)) as [ | [key d] l ].
    + left. subst out. do 2 eexists. split; [ reflexivity | ].
      split; [ simpl; tauto | discriminate ].
    + right. subst out. apply (S d).
  - destruct m as [key d]. right. subst out. apply (S d).
Qed.

(** ** ListCities: how many, and which *)

Lemma sort_desc_length {A K} (ltb : K -> K -> bool) (key : A -> K)
    (l : list A) :
  List.length (sort_desc ltb key l) = List.length l.
Proof. apply Permutation_length. apply sort_desc_perm. Qed.

(** Sorting rearranges, as long as the sort of keys with a NaN does. *)
Lemma sort_by_quality_perm sort_unordered (l : list city_summary) :
  (forall l', Permutation l' (sort_unordered l')) ->
  Permutation l (sort_by_quality sort_unordered l).
Proof.
  intros P. unfold sort_by_quality. destruct (existsb _ l).
  - apply P.
  - apply Permutation_sym. apply sort_desc_perm.
Qed.

(** X8. When its three numeric parameters convert, on a non-empty
    [CITIES_DATA] whose records carry the three sub-indices, [list_cities]
    answers 200 whatever [limit] is, [total] is the number of cities
    listed, and, sorting being a rearrangement, that number is the smaller
    of [limit] and the number of records the loop kept when [limit] is not
    negative, and the number of records kept less [-limit] (or none) when
    it is. *)
Theorem listing_length :
  forall lower parse_float parse_int sort_unordered g args
         min_quality max_cost limit,
    arg_value parse_float (arg_min_quality args) 0%float = Some min_quality ->
    arg_value parse_float (arg_max_cost args) 200%float = Some max_cost ->
    arg_value parse_int (arg_limit args) 20%Z = Some limit ->
    CITIES_DATA g <> [] ->
    Forall (fun kv => has_keys listing_keys (snd kv)) (CITIES_DATA g) ->
    (forall l, Permutation l (sort_unordered l)) ->
    let country := get_default (arg_country args) "" in
    let n :=
      List.length
        (filter (kept lower country min_quality max_cost)
                (map snd (CITIES_DATA g))) in
    exists r,
      list_cities lower parse_float parse_int sort_unordered args g
      = (Return (ListResult r, 200%nat), g)
      /\ list_total r = List.length (cities r)
      /\ ((0 <= limit)%Z ->
          List.length (cities r) = Nat.min (Z.to_nat limit) n)
      /\ ((limit < 0)%Z ->
          List.length (cities r) = (n - Z.to_nat (- limit))%nat).
Proof.
  intros lower parse_float parse_int sort_unordered g args
         min_quality max_cost limit Hq Hc Hl Hne F P country n.
  rewrite (list_cities_run lower parse_float parse_int sort_unordered args g
             min_quality max_cost limit Hq Hc Hl Hne F).
  cbv zeta. fold country.
  assert (L : List.length
                (sort_by_quality sort_unordered
                   (passing lower country min_quality max_cost g)) = n).
  { rewrite <- (Permutation_length
                  (sort_by_quality_perm sort_unordered _ P)).
    unfold passing. rewrite length_map. reflexivity. }
  eexists. split; [ reflexivity | ]. cbn [list_total cities].
  split; [ reflexivity | ]. unfold slice_to. split; intros Hs.
  - destruct (Z.leb_spec 0 limit); [ | lia ].
    rewrite length_firstn, L. reflexivity.
  - destruct (Z.leb_spec 0 limit); [ lia | ].
    rewrite length_firstn, L. lia.
Qed.

Lemma listing_length_witness :
  exists r,
    list_cities ascii_lower float_of_string int_of_string (fun l => l)
      (list_all "-1") (loaded (Parsed two_towns))
    = (Return (ListResult r, 200%nat), loaded (Parsed two_towns))
    /\ list_total r = 1%nat.
Proof.
  destruct (listing_length ascii_lower float_of_string int_of_string
              (fun l => l) (loaded (Parsed two_towns)) (list_all "-1")
              0%float 200%float (-1)%Z)
    as (r & H & T & _ & N).
  - reflexivity.
  - reflexivity.
  - reflexivity.
  - discriminate.
  - repeat constructor; discriminate.
  - intros l. apply Permutation_refl.
  - exists r. split; [ exact H | ]. rewrite T. apply N. reflexivity.
Defined.

Lemma StronglySorted_app_inv {A} (R : A -> A -> Prop) (l1 l2 : list A) :
  StronglySorted R (l1 ++ l2) ->
  forall a b, In a l1 -> In b l2 -> R a b.
Proof.
  induction l1 as [ | x l1 IH ]; intros S a b Ia Ib.
  - contradiction.
  - simpl in S. inversion S as [ | ? ? S' F ]; subst.
    destruct Ia as [E | Ia].
    + subst a. rewrite Forall_forall in F. apply F.
      apply in_or_app. right. exact Ib.
    + apply (IH S' a b Ia Ib).
Qed.

(** X9. For a [limit] that is not negative, and when no [qualityOfLife] to
    sort is a NaN, [list_cities] lists the best: the cities listed and the
    kept ones left out make up the summaries of the records the loop kept,
    none left out has a higher [qualityOfLife] than one listed, and nothing
    is left out when [limit] reaches the number of records kept. *)
Theorem listing_keeps_the_best :
  forall lower parse_float parse_int sort_unordered g args
         min_quality max_cost limit,
    arg_value parse_float (arg_min_quality args) 0%float = Some min_quality ->
    arg_value parse_float (arg_max_cost args) 200%float = Some max_cost ->
    arg_value parse_int (arg_limit args) 20%Z = Some limit ->
    CITIES_DATA g <> [] ->
    Forall (fun kv => has_keys listing_keys (snd kv)) (CITIES_DATA g) ->
    (0 <= limit)%Z ->
    let country := get_default (arg_country args) "" in
    let summaries := passing lower country min_quality max_cost g in
    Forall (fun c => is_nan (summary_qualityOfLife c) = false) summaries ->
    exists r left_out,
      list_cities lower parse_float parse_int sort_unordered args g
      = (Return (ListResult r, 200%nat), g)
      /\ Permutation (cities r ++ left_out) summaries
      /\ (forall a b,
             In a (cities r) -> In b left_out ->
             num_leb (summary_qualityOfLife b) (summary_qualityOfLife a)
             = true)
      /\ ((Z.of_nat (List.length summaries) <= limit)%Z -> left_out = []).
Proof.
  intros lower parse_float parse_int sort_unordered g args
         min_quality max_cost limit Hq Hc Hl Hne F Hs country summaries N.
  rewrite (list_cities_run lower parse_float parse_int sort_unordered args g
             min_quality max_cost limit Hq Hc Hl Hne F).
  cbv zeta. fold country. fold summaries.
  rewrite (slice_to_nonneg limit _ Hs).
  rewrite (sort_by_quality_ordered sort_unordered summaries N).
  set (sorted := sort_desc num_ltb summary_qualityOfLife summaries).
  assert (Ns : Forall (fun c => is_nan (summary_qualityOfLife c) = false)
                      sorted).
  { apply (Permutation_Forall
             (Permutation_sym
                (sort_desc_perm num_ltb summary_qualityOfLife summaries))).
    exact N. }
  eexists. exists (skipn (Z.to_nat limit) sorted).
  split; [ reflexivity | ]. cbn [cities].
  split; [ | split ].
  - rewrite firstn_skipn. apply sort_desc_perm.
  - intros a b Ia Ib.
    pose proof (sort_desc_sorted num_ltb summary_qualityOfLife
                  (fun k => is_nan k = false)
                  num_ltb_asym num_ltb_negtrans summaries N) as S.
    fold sorted in S. rewrite <- (firstn_skipn (Z.to_nat limit) sorted) in S.
    pose proof (StronglySorted_app_inv _ _ _ S a b Ia Ib) as B.
    cbv beta in B. rewrite Forall_forall in Ns.
    rewrite num_ltb_negb_leb in B.
    + apply negb_false_iff in B. exact B.
    + apply Ns. rewrite <- (firstn_skipn (Z.to_nat limit) sorted).
      apply in_or_app. left. exact Ia.
    + apply Ns. rewrite <- (firstn_skipn (Z.to_nat limit) sorted).
      apply in_or_app. right. exact Ib.
  - intros Hn. apply skipn_all2. unfold sorted.
    rewrite sort_desc_length. lia.
Qed.

Lemma listing_keeps_the_best_witness :
  exists r left_out,
    list_cities ascii_lower float_of_string int_of_string (fun l => l)
      (list_all "1") (loaded (Parsed two_towns))
    = (Return (ListResult r, 200%nat), loaded (Parsed two_towns))
    /\ Permutation (cities r ++ left_out)
         (passing ascii_lower "" 0 200 (loaded (Parsed two_towns)))
    /\ forall a b,
         In a (cities r) -> In b left_out ->
         num_leb (summary_qualityOfLife b) (summary_qualityOfLife a) = true.
Proof.
  destruct (listing_keeps_the_best ascii_lower float_of_string int_of_string
              (fun l => l) (loaded (Parsed two_towns)) (list_all "1")
              0%float 200%float 1%Z)
    as (r & left_out & H & P & B & _).
  - reflexivity.
  - reflexivity.
  - reflexivity.
  - discriminate.
  - repeat constructor; discriminate.
  - lia.
  - repeat constructor.
  - exists r, left_out. split; [ exact H | ]. split; [ exact P | exact B ].
Defined.

Lemma list_filtered_outcome lower (country : string)
    (min_quality max_cost : float) (items : list (string * city_record))
    (g : globals) :
  (exists filtered,
      list_filtered lower country min_quality max_cost items g
      = (Return filtered, g))
  \/ (exists k key data,
        In k listing_keys
        /\ In (key, data) items
        /\ Dict.get k (index_of data) = None
        /\ list_filtered lower country min_quality max_cost items g
           = (Raise (KeyError k), g)).
Proof.
  induction items as [ | [key data] rest IH ].
  - left. exists []. reflexivity.
  - assert (Skip : (exists filtered,
                       list_filtered lower country min_quality max_cost
                         rest g = (Return filtered, g))
                   \/ (exists k key' data',
                         In k listing_keys
                         /\ In (key', data') ((key, data) :: rest)
                         /\ Dict.get k (index_of data') = None
                         /\ list_filtered lower country min_quality max_cost
                              rest g = (Raise (KeyError k), g))).
    { destruct IH as [IH | (k & key' & data' & Ik & Id & Hk & Hr)].
      - left. exact IH.
      - right. exists k, key', data'. repeat split; auto. right. exact Id. }
    remember (list_filtered lower country min_quality max_cost
                ((key, data) :: rest) g) as out eqn:Eo.
    cbn [list_filtered] in Eo.
    destruct (truthy country
              && negb (contains (lower country) (lower (country_of data))));
      [ subst out; exact Skip | ].
    unfold bind at 1 in Eo. unfold getitem at 1 in Eo.
    destruct (Dict.get "qualityOfLifeIndex" (index_of data)) as [q | ] eqn:Hq.
    2: { right. exists "qualityOfLifeIndex", key, data.
         split; [ simpl; tauto | ]. split; [ left; reflexivity | ].
         split; [ exact Hq | exact Eo ]. }
    cbv [ret] in Eo.
    destruct (num_ltb q (NFloat min_quality)); [ subst out; exact Skip | ].
    unfold bind at 1 in Eo. unfold getitem at 1 in Eo.
    destruct (Dict.get "costOfLivingIndex" (index_of data)) as [c | ] eqn:Hc.
    2: { right. exists "costOfLivingIndex", key, data.
         split; [ simpl; tauto | ]. split; [ left; reflexivity | ].
         split; [ exact Hc | exact Eo ]. }
    cbv [ret] in Eo.
    destruct (num_ltb (NFloat max_cost) c); [ subst out; exact Skip | ].
    unfold bind at 1 in Eo. unfold getitem at 1 in Eo.
    destruct (Dict.get "safetyIndex" (index_of data)) as [s | ] eqn:Hs.
    2: { right. exists "safetyIndex", key, data.
         split; [ simpl; tauto | ]. split; [ left; reflexivity | ].
         split; [ exact Hs | exact Eo ]. }
    cbv [ret] in Eo. unfold bind at 1 in Eo.
    destruct Skip as [(filtered & Hf) | (k & key' & data' & Ik & Id & Hk & Hr)].
    + rewrite Hf in Eo. left. eexists. exact Eo.
    + rewrite Hr in Eo. right. exists k, key', data'. auto.
Qed.

(** X10. [list_cities] has four outcomes and no other. A [min_quality],
    [max_cost] or [limit] that does not convert is a [ValueError],
    whatever [CITIES_DATA] holds. When the three convert: a 500 with an
    empty list exactly when [CITIES_DATA] is empty; else a 200 whose
    [total] is the number of cities listed, or the [KeyError] of one of the
    three sub-indices it reads, absent from a stored record. None changes
    the globals. With [limit=abc] the answer is a [ValueError] also before
    anything is loaded. *)
Theorem listing_answer_shapes :
  (forall lower parse_float parse_int sort_unordered args g,
      let convert :=
        arg_value parse_float (arg_min_quality args) 0%float <> None
        /\ arg_value parse_float (arg_max_cost args) 200%float <> None
        /\ arg_value parse_int (arg_limit args) 20%Z <> None in
      (~ convert
       /\ list_cities lower parse_float parse_int sort_unordered args g
          = (Raise ValueError, g))
      \/ (convert
          /\ CITIES_DATA g = []
          /\ list_cities lower parse_float parse_int sort_unordered args g
             = (Return (ListError "Aucune donnée chargée" [], 500%nat), g))
      \/ (convert
          /\ CITIES_DATA g <> []
          /\ exists r,
               list_cities lower parse_float parse_int sort_unordered args g
               = (Return (ListResult r, 200%nat), g)
               /\ list_total r = List.length (cities r))
      \/ (convert
          /\ CITIES_DATA g <> []
          /\ exists k key data,
               In k listing_keys
               /\ In (key, data) (CITIES_DATA g)
               /\ Dict.get k (index_of data) = None
               /\ list_cities lower parse_float parse_int sort_unordered
                    args g
                  = (Raise (KeyError k), g)))
  /\ list_cities ascii_lower float_of_string int_of_string (fun l => l)
       (list_all "abc") initial
     = (Raise ValueError, initial).
Proof.
  split; [ | reflexivity ].
  intros lower parse_float parse_int sort_unordered args g convert.
  subst convert.
  remember (list_cities lower parse_float parse_int sort_unordered args g)
    as out eqn:Eo.
  unfold list_cities in Eo.
  unfold bind at 1 in Eo. unfold float_arg at 1 in Eo.
  destruct (arg_value parse_float (arg_min_quality args) 0%float)
    as [ min_quality | ] eqn:Hq.
  2: { left. split; [ intros (C & _); congruence | exact Eo ]. }
  cbv [ret] in Eo.
  unfold bind at 1 in Eo. unfold float_arg at 1 in Eo.
  destruct (arg_value parse_float (arg_max_cost args) 200%float)
    as [ max_cost | ] eqn:Hc.
  2: { left. split; [ intros (_ & C & _); congruence | exact Eo ]. }
  cbv [ret] in Eo.
  unfold bind at 1 in Eo. unfold int_arg at 1 in Eo.
  destruct (arg_value parse_int (arg_limit args) 20%Z) as [ limit | ] eqn:Hl.
  2: { left. split; [ intros (_ & _ & C); congruence | exact Eo ]. }
  assert (C : Some min_quality <> None /\ Some max_cost <> None
              /\ Some limit <> None)
    by (repeat split; discriminate).
  right. cbv [bind read ret] in Eo.
  destruct (CITIES_DATA g) as [ | kv rest ] eqn:Ec;
    cbn [Dict.is_empty] in Eo; cbv beta iota in Eo.
  { left. split; [ exact C | ]. split; [ reflexivity | exact Eo ]. }
  right. rewrite Ec in Eo.
  destruct (list_filtered_outcome lower
              (get_default (arg_country args) "")
              min_quality max_cost (kv :: rest) g)
    as [(filtered & Hf) | (k & key & data & Ik & Id & Hk & Hr)].
  - left. split; [ exact C | ]. split; [ discriminate | ].
    rewrite Hf in Eo. subst out.
    eexists. split; reflexivity.
  - right. split; [ exact C | ]. split; [ discriminate | ].
    rewrite Hr in Eo. subst out.
    exists k, key, data. auto.
Qed.

(** ** ListCountries *)

Lemma StronglySorted_map {A B} (f : A -> B) (R : B -> B -> Prop)
    (l : list A) :
  StronglySorted (fun x y => R (f x) (f y)) l -> StronglySorted R (map f l).
Proof.
  induction 1 as [ | x l S IH F ]; simpl; constructor.
  - exact IH.
  - rewrite Forall_forall in *. intros b Ib.
    apply in_map_iff in Ib. destruct Ib as (y & E & Iy). subst b.
    apply F. exact Iy.
Qed.

Lemma filter_map_comm {A B} (f : A -> B) (P : B -> bool) (l : list A) :
  filter P (map f l) = map f (filter (fun x => P (f x)) l).
Proof.
  induction l as [ | x l IH ]; simpl; [ reflexivity | ].
  destruct (P (f x)); simpl; rewrite IH; reflexivity.
Qed.

Lemma ltb_asym (a b : nat) : Nat.ltb a b = true -> Nat.ltb b a = false.
Proof. rewrite Nat.ltb_lt, Nat.ltb_ge. lia. Qed.

Lemma ltb_negtrans (a b c : nat) :
  Nat.ltb a b = false -> Nat.ltb b c = false -> Nat.ltb a c = false.
Proof. rewrite !Nat.ltb_ge. lia. Qed.

Lemma tied_eqb {A} (key : A -> nat) (n : nat) (x : A) :
  tied Nat.ltb key n x = Nat.eqb (key x) n.
Proof.
  unfold tied.
  destruct (Nat.ltb_spec (key x) n); destruct (Nat.ltb_spec n (key x));
    destruct (Nat.eqb_spec (key x) n); simpl; try reflexivity; lia.
Qed.

(** What [get_countries] answers when [COUNTRIES] is not empty. *)
Lemma get_countries_run (g : globals) :
  COUNTRIES g <> [] ->
  get_countries g
  = (Return
       (CountriesResult
          {| total := List.length (COUNTRIES g);
             totalCities := List.length (CITIES_DATA g);
             countries :=
               map count_cities
                   (sort_desc Nat.ltb (fun x => List.length (snd x))
                              (COUNTRIES g)) |}, 200%nat), g).
Proof.
  intros Hne. cbv [get_countries bind read ret].
  destruct (COUNTRIES g) as [ | x xs ] eqn:Ec; [ congruence | ].
  cbn [Dict.is_empty]. cbv beta iota. rewrite Ec. reflexivity.
Qed.

(** X11. [get_countries] answers 500 with an empty list when [COUNTRIES]
    is empty. Otherwise it answers 200: [total] is the number of countries,
    [totalCities] the number of stored records, and [countries] holds one
    entry per country with the length of its name list, sorted by
    non-increasing [cityCount], countries with equal counts in
    registration order. *)
Theorem countries_by_count :
  forall g,
    (COUNTRIES g = [] ->
     get_countries g
     = (Return (CountriesError "Aucune donnée chargée" [], 500%nat), g))
    /\ (COUNTRIES g <> [] ->
        exists r,
          get_countries g = (Return (CountriesResult r, 200%nat), g)
          /\ total r = List.length (COUNTRIES g)
          /\ totalCities r = List.length (CITIES_DATA g)
          /\ List.length (countries r) = total r
          /\ Permutation (countries r) (map count_cities (COUNTRIES g))
          /\ StronglySorted (fun a b => (cityCount b <= cityCount a)%nat)
                            (countries r)
          /\ forall n,
               filter (fun c => Nat.eqb (cityCount c) n) (countries r)
               = filter (fun c => Nat.eqb (cityCount c) n)
                        (map count_cities (COUNTRIES g))).
Proof.
  intros g. split.
  - intros E. cbv [get_countries bind read ret]. rewrite E. reflexivity.
  - intros Hne. rewrite (get_countries_run g Hne).
    set (key := fun x : string * list string => List.length (snd x)).
    eexists. split; [ reflexivity | ]. cbn [total totalCities countries].
    split; [ reflexivity | ]. split; [ reflexivity | ].
    split; [ | split; [ | split ] ].
    + rewrite length_map. apply sort_desc_length.
    + apply Permutation_map. apply sort_desc_perm.
    + apply StronglySorted_map.
      pose proof (sort_desc_sorted Nat.ltb key (fun _ => True) ltb_asym
                    (fun a b c _ => ltb_negtrans a b c) (COUNTRIES g)
                    (proj2 (Forall_forall _ _) (fun _ _ => Logic.I))) as S.
      induction S as [ | x l S IH F ]; constructor.
      * exact IH.
      * revert F. apply Forall_impl. intros y Hy.
        apply Nat.ltb_ge in Hy. exact Hy.
    + intros n. rewrite !filter_map_comm. f_equal.
      assert (T : forall x,
                 Nat.eqb (cityCount (count_cities x)) n
                 = tied Nat.ltb key n x)
        by (intros x; symmetry; exact (tied_eqb key n x)).
      rewrite !(filter_ext _ _ T).
      apply (sort_desc_stable Nat.ltb key (fun _ => True)
               (fun a b c _ => ltb_negtrans a b c) n (COUNTRIES g) Logic.I).
Qed.

Lemma countries_by_count_witness :
  exists r,
    get_countries (loaded (Parsed germany_twice))
    = (Return (CountriesResult r, 200%nat), loaded (Parsed germany_twice))
    /\ total r = 1%nat
    /\ totalCities r = 2%nat.
Proof.
  destruct (proj2 (countries_by_count (loaded (Parsed germany_twice))))
    as (r & H & T & C & _).
  - discriminate.
  - exists r. split; [ exact H | ]. split; [ exact T | exact C ].
Defined.

(** ** Build: when it fails *)

(** The keys the loading loop indexes. *)
Lemma load_cities_outcome (country : string) (cities : list city_json) :
  forall (g : globals) (acc : list string),
    Dict.get country (COUNTRIES g) = Some acc ->
    (Forall (fun city_data => cd_city city_data <> None) cities
     /\ exists g', for_each cities (load_city country) g = (Return tt, g'))
    \/ (~ Forall (fun city_data => cd_city city_data <> None) cities
        /\ exists g',
             for_each cities (load_city country) g
             = (Raise (KeyError "city"), g')).
Proof.
  induction cities as [ | c cities IH ]; intros g acc Ha.
  - left. split; [ constructor | ]. exists g. reflexivity.
  - destruct (cd_city c) as [n | ] eqn:En.
    + simpl for_each. unfold bind.
      rewrite (load_city_run country c n acc g En Ha).
      match goal with
      | |- context [for_each cities (load_city country) ?g1] =>
          destruct (IH g1 (acc ++ [n])%list) as [(F & g' & H) | (NF & g' & H)];
          [ simpl; apply get_set_same | | ]; rewrite H
      end.
      * left. split; [ | exists g'; reflexivity ].
        constructor; [ congruence | exact F ].
      * right. split; [ | exists g'; reflexivity ].
        intros F. inversion F; subst. contradiction.
    + right. split.
      * intros F. inversion F; subst. congruence.
      * exists g. simpl for_each. unfold bind, load_city, bind, field.
        rewrite En. reflexivity.
Qed.

Lemma load_country_outcome (country_data : country_json) (g : globals) :
  (complete_group country_data
   /\ exists g', load_country country_data g = (Return tt, g'))
  \/ (~ complete_group country_data
      /\ exists k g',
           In k ["country"; "cities"; "city"]
           /\ load_country country_data g = (Raise (KeyError k), g')).
Proof.
  destruct country_data as [[c | ] cs].
  2: { right. split.
       - intros (H & _). simpl in H. congruence.
       - exists "country", g. split; [ simpl; tauto | reflexivity ]. }
  destruct cs as [l | ].
  2: { right. split.
       - intros (_ & H & _). simpl in H. congruence.
       - eexists "cities", _. split; [ simpl; tauto | reflexivity ]. }
  unfold load_country, bind. simpl.
  match goal with
  | |- context [for_each l (load_city c) ?g1] =>
      destruct (load_cities_outcome c l g1 [])
        as [(F & g' & H) | (NF & g' & H)];
      [ simpl; apply get_set_same | | ]; rewrite H
  end.
  - left. split; [ | exists g'; reflexivity ].
    repeat split; simpl; try discriminate. exact F.
  - right. split.
    + intros (_ & _ & F). apply NF. exact F.
    + exists "city", g'. split; [ simpl; tauto | reflexivity ].
Qed.

Lemma load_countries_outcome (countries_list : list country_json) :
  forall g : globals,
    (Forall complete_group countries_list
     /\ exists g', for_each countries_list load_country g = (Return tt, g'))
    \/ (~ Forall complete_group countries_list
        /\ exists k g',
             In k ["country"; "cities"; "city"]
             /\ for_each countries_list load_country g
                = (Raise (KeyError k), g')).
Proof.
  induction countries_list as [ | cd l IH ]; intros g.
  - left. split; [ constructor | ]. exists g. reflexivity.
  - simpl for_each. unfold bind.
    destruct (load_country_outcome cd g)
      as [(C & g1 & H) | (NC & k & g1 & Ik & H)]; rewrite H.
    + destruct (IH g1) as [(F & g' & H') | (NF & k & g' & Ik & H')];
        rewrite H'.
      * left. split; [ constructor; assumption | exists g'; reflexivity ].
      * right. split.
        -- intros F. inversion F; subst. contradiction.
        -- exists k, g'. split; [ exact Ik | reflexivity ].
    + right. split.
      * intros F. inversion F; subst. contradiction.
      * exists k, g1. split; [ exact Ik | reflexivity ].
Qed.

(** X12. The [try] block of [load_cities_data] succeeds on a parsed file
    exactly when every group has its ["country"] and ["cities"] keys and
    every city its ["city"] key; otherwise it raises the [KeyError] of one
    of these three keys. [load_cities_data] itself swallows every
    exception: it returns normally on any source. *)
Theorem load_fails_on_a_missing_key :
  forall countries_list,
    (Forall complete_group countries_list
     <-> fst (load_try (Parsed countries_list) initial) = Return tt)
    /\ (~ Forall complete_group countries_list ->
        exists k,
          In k ["country"; "cities"; "city"]
          /\ fst (load_try (Parsed countries_list) initial)
             = Raise (KeyError k))
    /\ forall src, fst (load_cities_data src initial) = Return tt.
Proof.
  intros l.
  assert (E : load_try (Parsed l) initial = for_each l load_country initial)
    by reflexivity.
  rewrite E.
  destruct (load_countries_outcome l initial)
    as [(F & g' & H) | (NF & k & g' & Ik & H)]; rewrite H; simpl.
  - split; [ | split ].
    + split; auto.
    + intros NF. contradiction.
    + intros src. unfold load_cities_data, try_except.
      destruct (load_try src initial) as [[[] | e] g1]; reflexivity.
  - split; [ | split ].
    + split; [ intros F; contradiction | discriminate ].
    + intros _. exists k. auto.
    + intros src. unfold load_cities_data, try_except.
      destruct (load_try src initial) as [[[] | e] g1]; reflexivity.
Qed.

Lemma load_fails_on_a_missing_key_witness :
  exists k,
    In k ["country"; "cities"; "city"]
    /\ fst (load_try (Parsed broken_second) initial) = Raise (KeyError k).
Proof.
  apply (proj1 (proj2 (load_fails_on_a_missing_key broken_second))).
  intros F. inversion F as [ | ? ? _ F' ]; subst.
  inversion F' as [ | ? ? (C & _) _ ]; subst. apply C. reflexivity.
Defined.

(** ** Build: what the dictionaries hold *)

Lemma set_not_nil {V} (k : string) (v : V) (d : Dict.t V) :
  Dict.set k v d <> [].
Proof.
  destruct d as [ | [k' v'] d ]; simpl; [ discriminate | ].
  destruct (String.eqb k k'); discriminate.
Qed.

Lemma length_set {V} (k : string) (v : V) (d : Dict.t V) :
  (List.length (Dict.set k v d) <= S (List.length d))%nat.
Proof.
  induction d as [ | [k' v'] d IH ]; simpl; [ lia | ].
  destruct (String.eqb k k'); simpl; lia.
Qed.

Lemma length_update {V} (kvs : list (string * V)) (d : Dict.t V) :
  (List.length (Dict.update kvs d) <= List.length d + List.length kvs)%nat.
Proof.
  revert d. induction kvs as [ | [k v] kvs IH ]; intros d.
  - simpl. lia.
  - change (Dict.update ((k, v) :: kvs) d)
      with (Dict.update kvs (Dict.set k v d)).
    pose proof (IH (Dict.set k v d)). pose proof (length_set k v d).
    simpl. lia.
Qed.

Lemma get_set_some {V} (k k' : string) (v : V) (d : Dict.t V) :
  Dict.get k d <> None -> Dict.get k (Dict.set k' v d) <> None.
Proof.
  intros H. destruct (String.eqb_spec k k') as [E | E].
  - subst k'. rewrite get_set_same. discriminate.
  - rewrite get_set_other by exact E. exact H.
Qed.

(** X13. After a file with every key is loaded, the record found under a
    composite key is the one of the last city entry of the file that makes
    this key: a later entry overwrites an earlier one. Every entry's key is
    stored, and [CITIES_DATA] holds at most as many records as the file has
    city entries. *)
Theorem later_entry_overwrites :
  forall countries_list,
    Forall complete_group countries_list ->
    let entries := flat_map group_records countries_list in
    let stored := CITIES_DATA (loaded (Parsed countries_list)) in
    (forall k,
        Dict.get k stored
        = option_map snd
            (find (fun kv => String.eqb (fst kv) k) (rev entries)))
    /\ (forall kv, In kv entries -> Dict.get (fst kv) stored <> None)
    /\ (List.length stored <= List.length entries)%nat.
Proof.
  intros l F entries stored.
  assert (E : stored = Dict.update entries []).
  { unfold stored. rewrite (loaded_complete l F). reflexivity. }
  assert (G : forall k,
             Dict.get k stored
             = option_map snd
                 (find (fun kv => String.eqb (fst kv) k) (rev entries))).
  { intros k. rewrite E, get_update.
    destruct (find _ (rev entries)); reflexivity. }
  split; [ exact G | ]. split.
  - intros kv Ik. rewrite G.
    destruct (find (fun kv0 => String.eqb (fst kv0) (fst kv)) (rev entries))
      eqn:Ef; [ discriminate | ].
    exfalso.
    apply in_rev in Ik. apply (find_none _ _ Ef kv) in Ik.
    rewrite String.eqb_refl in Ik. discriminate.
  - rewrite E. apply (length_update entries []).
Qed.

Lemma later_entry_overwrites_witness :
  Dict.get "Berlin, Germany" (CITIES_DATA (loaded (Parsed berlin_twice)))
  = Some (record_of "Berlin" "Germany" (town "Berlin" (NInt 180)))
  /\ (List.length (CITIES_DATA (loaded (Parsed berlin_twice))) <= 2)%nat.
Proof.
  assert (F : Forall complete_group berlin_twice)
    by (repeat constructor; simpl; discriminate).
  destruct (later_entry_overwrites berlin_twice F) as (G & _ & L).
  split; [ exact (G "Berlin, Germany") | exact L ].
Defined.

(** ** Build: what holds after any load *)

Lemma for_each_preserves {A} (P : globals -> Prop) (body : A -> M unit)
    (l : list A) :
  (forall x g, P g -> P (snd (body x g))) ->
  forall g, P g -> P (snd (for_each l body g)).
Proof.
  intros Hb. induction l as [ | x l IH ]; intros g Hg.
  - exact Hg.
  - simpl for_each. unfold bind. specialize (Hb x g Hg).
    destruct (body x g) as [[u | e] g1]; simpl in Hb.
    + apply IH. exact Hb.
    + exact Hb.
Qed.

Lemma load_city_keeps (country : string) (city_data : city_json)
    (g : globals) :
  names_have_records g /\ COUNTRIES g <> [] ->
  names_have_records (snd (load_city country city_data g))
  /\ COUNTRIES (snd (load_city country city_data g)) <> [].
Proof.
  intros [N C].
  cbv [load_city append_COUNTRIES field bind read set_CITIES_DATA
       set_COUNTRIES getitem ret raise].
  destruct (cd_city city_data) as [n | ]; [ | split; assumption ].
  cbn [COUNTRIES CITIES_DATA].
  destruct (Dict.get country (COUNTRIES g)) as [cities | ] eqn:Ec.
  - cbn [snd COUNTRIES CITIES_DATA]. split; [ | apply set_not_nil ].
    intros country' names x Hg Hx. cbn [COUNTRIES CITIES_DATA] in *.
    destruct (String.eqb_spec country' country) as [E | E].
    + subst country'. rewrite get_set_same in Hg. inversion Hg; subst names.
      apply in_app_or in Hx. destruct Hx as [Hx | [Hx | []]].
      * apply get_set_some. apply (N country cities x Ec Hx).
      * subst x. rewrite get_set_same. discriminate.
    + rewrite get_set_other in Hg by exact E.
      apply get_set_some. apply (N country' names x Hg Hx).
  - cbn [snd COUNTRIES CITIES_DATA]. split; [ | exact C ].
    intros country' names x Hg Hx. cbn [COUNTRIES CITIES_DATA] in *.
    apply get_set_some. apply (N country' names x Hg Hx).
Qed.

Lemma load_country_keeps (country_data : country_json) (g : globals) :
  names_have_records g /\ (CITIES_DATA g <> [] -> COUNTRIES g <> []) ->
  names_have_records (snd (load_country country_data g))
  /\ (CITIES_DATA (snd (load_country country_data g)) <> [] ->
      COUNTRIES (snd (load_country country_data g)) <> []).
Proof.
  intros [N C]. unfold load_country, bind, field.
  destruct (cj_country country_data) as [c | ]; [ | split; assumption ].
  cbv [ret set_COUNTRIES]. 
  set (g1 := {| CITIES_DATA := CITIES_DATA g;
                COUNTRIES := Dict.set c [] (COUNTRIES g) |}).
  assert (J : names_have_records g1 /\ COUNTRIES g1 <> []).
  { split; [ | apply set_not_nil ].
    intros country' names x Hg Hx. unfold g1 in *.
    cbn [COUNTRIES CITIES_DATA] in *.
    destruct (String.eqb_spec country' c) as [E | E].
    - subst country'. rewrite get_set_same in Hg. inversion Hg; subst names.
      contradiction.
    - rewrite get_set_other in Hg by exact E.
      apply (N country' names x Hg Hx). }
  destruct (cj_cities country_data) as [l | ].
  - cbv [raise].
    pose proof (for_each_preserves
                  (fun g => names_have_records g /\ COUNTRIES g <> [])
                  (load_city c) l (fun x g' => load_city_keeps c x g')
                  g1 J) as [N' C'].
    split; [ exact N' | intros _; exact C' ].
  - cbv [raise]. cbn [snd]. destruct J as [N1 C1].
    split; [ exact N1 | intros _; exact C1 ].
Qed.

(** The two facts hold of the globals whatever the data file was. *)
Lemma loaded_keeps (src : source) :
  names_have_records (loaded src)
  /\ (CITIES_DATA (loaded src) <> [] -> COUNTRIES (loaded src) <> []).
Proof.
  assert (I0 : names_have_records initial
               /\ (CITIES_DATA initial <> [] -> COUNTRIES initial <> [])).
  { split; [ intros c names x H; discriminate | ].
    intros H. exfalso. apply H. reflexivity. }
  assert (E : loaded src = snd (load_try src initial)).
  { unfold loaded, load_cities_data, try_except.
    destruct (load_try src initial) as [[u | e] g1]; reflexivity. }
  rewrite E. destruct src as [ | | l ]; try exact I0.
  unfold load_try, bind. simpl.
  apply (for_each_preserves
           (fun g => names_have_records g
                     /\ (CITIES_DATA g <> [] -> COUNTRIES g <> []))
           load_country l load_country_keeps initial I0).
Qed.

(** X14. Whatever the data file was, and whether the load failed or not:
    every city name listed under a country in [COUNTRIES] has a record in
    [CITIES_DATA] under its composite key, and [COUNTRIES] is not empty
    when [CITIES_DATA] is not. *)
Theorem counted_names_are_stored :
  forall src,
    (forall country names city_name,
        Dict.get country (COUNTRIES (loaded src)) = Some names ->
        In city_name names ->
        exists city_data,
          Dict.get (city_name ++ ", " ++ country) (CITIES_DATA (loaded src))
          = Some city_data)
    /\ (CITIES_DATA (loaded src) <> [] -> COUNTRIES (loaded src) <> []).
Proof.
  intros src. destruct (loaded_keeps src) as [N C].
  split; [ | exact C ].
  intros country names x Hg Hx. specialize (N country names x Hg Hx).
  unfold city_key_of in N.
  destruct (Dict.get (x ++ ", " ++ country) (CITIES_DATA (loaded src)))
    as [d | ]; [ exists d; reflexivity | congruence ].
Qed.

(** ** Start-up *)

Lemma find_city_score_not_500 lower (data : score_request) (g g' : globals)
    (e : score_error) (code : nat) :
  CITIES_DATA g <> [] ->
  find_city_score lower data g = (Return (ScoreError e, code), g') ->
  code = 400%nat \/ code = 404%nat.
Proof.
  intros Hne H. cbv [find_city_score search_city bind read ret] in H.
  destruct (truthy (get_default (rq_city_name data) "")); cbn [negb] in H;
    cbv beta iota in H.
  2: { inversion H. left. reflexivity. }
  destruct (CITIES_DATA g) as [ | kv rest ] eqn:Ec; [ congruence | ].
  cbn [Dict.is_empty] in H. cbv beta iota in H. rewrite Ec in H.
  destruct (filter _ (kv :: rest)) as [ | m ms ].
  { inversion H. right. reflexivity. }
  destruct (truthy (get_default (rq_country data) "")).
  - destruct (filter _ (m :: ms)) as [ | [key d] l ].
    + inversion H. right. reflexivity.
    + destruct (score_record d g) as [[r | x] g1]; discriminate.
  - destruct m as [key d].
    destruct (score_record d g) as [[r | x] g1]; discriminate.
Qed.

Lemma list_cities_not_error lower parse_float parse_int sort_unordered
    (args : list_request) (g g' : globals)
    (msg : string) (l : list city_summary) (code : nat) :
  CITIES_DATA g <> [] ->
  list_cities lower parse_float parse_int sort_unordered args g
  <> (Return (ListError msg l, code), g').
Proof.
  intros Hne H. unfold list_cities in H.
  unfold bind at 1 in H. unfold float_arg at 1 in H.
  destruct (arg_value parse_float (arg_min_quality args) 0%float);
    [ | discriminate ].
  cbv [ret] in H. unfold bind at 1 in H. unfold float_arg at 1 in H.
  destruct (arg_value parse_float (arg_max_cost args) 200%float);
    [ | discriminate ].
  cbv [ret] in H. unfold bind at 1 in H. unfold int_arg at 1 in H.
  destruct (arg_value parse_int (arg_limit args) 20%Z); [ | discriminate ].
  cbv [bind read ret] in H.
  destruct (CITIES_DATA g) as [ | kv rest ] eqn:Ec; [ congruence | ].
  cbn [Dict.is_empty] in H. cbv beta iota in H. rewrite Ec in H.
  destruct (list_filtered lower _ _ _ (kv :: rest) g) as [[kept | x] g1];
    discriminate.
Qed.

(** X15. When [main] gets to [app.run], the globals are those of the load
    and neither dictionary is empty, so no handler takes its "no data"
    branch: [find_city_score] answers an error only with 400 or 404,
    [list_cities] never answers an error body, and [get_countries] answers
    200. *)
Theorem serving_has_data :
  forall src g,
    main src = Serving g ->
    g = loaded src
    /\ CITIES_DATA g <> []
    /\ COUNTRIES g <> []
    /\ (forall lower data e code g',
           find_city_score lower data g = (Return (ScoreError e, code), g') ->
           code = 400%nat \/ code = 404%nat)
    /\ (forall lower parse_float parse_int sort_unordered args msg l code g',
           list_cities lower parse_float parse_int sort_unordered args g
           <> (Return (ListError msg l, code), g'))
    /\ exists r, get_countries g = (Return (CountriesResult r, 200%nat), g).
Proof.
  intros src g H. unfold main in H.
  destruct (CITIES_DATA (loaded src)) as [ | kv rest ] eqn:Ec;
    cbn [Dict.is_empty] in H; [ discriminate | ].
  inversion H; subst g.
  assert (D : CITIES_DATA (loaded src) <> []) by (rewrite Ec; discriminate).
  assert (C : COUNTRIES (loaded src) <> [])
    by (apply (proj2 (loaded_keeps src)); exact D).
  split; [ reflexivity | ]. split; [ exact D | ]. split; [ exact C | ].
  split; [ | split ].
  - intros lower data e code g' Hf.
    apply (find_city_score_not_500 lower data _ g' e code D Hf).
  - intros lower parse_float parse_int sort_unordered args msg l code g'.
    apply list_cities_not_error. exact D.
  - eexists. apply (get_countries_run _ C).
Qed.

Lemma serving_has_data_witness :
  CITIES_DATA (loaded (Parsed broken_second)) <> []
  /\ COUNTRIES (loaded (Parsed broken_second)) <> []
  /\ exists r,
       get_countries (loaded (Parsed broken_second))
       = (Return (CountriesResult r, 200%nat), loaded (Parsed broken_second)).
Proof.
  destruct (serving_has_data (Parsed broken_second)
              (loaded (Parsed broken_second)) eq_refl)
    as (_ & D & C & _ & _ & G).
  split; [ exact D | ]. split; [ exact C | exact G ].
Defined.

Lemma update_not_nil {V} (kvs : list (string * V)) (d : Dict.t V) :
  d <> [] -> Dict.update kvs d <> [].
Proof.
  revert d. induction kvs as [ | [k v] kvs IH ]; intros d H.
  - exact H.
  - change (Dict.update ((k, v) :: kvs) d)
      with (Dict.update kvs (Dict.set k v d)).
    apply IH. apply set_not_nil.
Qed.

Lemma update_nil_iff {V} (kvs : list (string * V)) :
  Dict.update kvs [] = [] <-> kvs = [].
Proof.
  split; intros H.
  - destruct kvs as [ | [k v] kvs ]; [ reflexivity | ].
    exfalso. revert H.
    change (Dict.update ((k, v) :: kvs) [])
      with (Dict.update kvs (Dict.set k v [])).
    apply update_not_nil. apply set_not_nil.
  - subst kvs. reflexivity.
Qed.

Lemma no_records_iff (countries_list : list country_json) :
  flat_map group_records countries_list = []
  <-> forall cd, In cd countries_list -> group_cities cd = [].
Proof.
  induction countries_list as [ | cd l IH ]; simpl.
  - split; [ intros _ x [] | reflexivity ].
  - split.
    + intros H. apply app_eq_nil in H. destruct H as [H1 H2].
      intros x [E | Ix].
      * subst x. unfold group_records in H1.
        apply map_eq_nil in H1. exact H1.
      * apply (proj1 IH H2 x Ix).
    + intros H.
      assert (H1 : group_records cd = []).
      { unfold group_records. rewrite (H cd (or_introl eq_refl)).
        reflexivity. }
      rewrite H1. simpl. apply IH. intros x Ix. apply H. right. exact Ix.
Qed.

Lemma loaded_until_broken (earlier later : list country_json)
    (country_data : country_json) :
  Forall complete_group earlier ->
  cj_country country_data = None ->
  loaded (Parsed (earlier ++ country_data :: later))
  = loaded (Parsed earlier).
Proof.
  intros F Hc. rewrite (loaded_complete earlier F).
  unfold loaded, load_cities_data, try_except, load_try, bind. simpl.
  rewrite for_each_app. unfold bind.
  rewrite (load_countries_run earlier initial F). simpl.
  unfold bind, load_country, bind, field. rewrite Hc. reflexivity.
Qed.

(** X16. [main] exits with code 1 when the data file is missing or is not
    JSON. On a file with every key it exits with code 1 exactly when no
    group lists a city, also when countries were registered. After a load
    that failed on a group without its ["country"] key, it serves what the
    earlier groups stored, provided they list a city. *)
Theorem main_exits_without_cities :
  (forall src, src = NoFile \/ src = BadJSON -> main src = Exit 1)
  /\ (forall countries_list,
         Forall complete_group countries_list ->
         (main (Parsed countries_list) = Exit 1
          <-> forall cd, In cd countries_list -> group_cities cd = []))
  /\ (forall earlier country_data later,
         Forall complete_group earlier ->
         cj_country country_data = None ->
         flat_map group_records earlier <> [] ->
         main (Parsed (earlier ++ country_data :: later))
         = Serving (loaded (Parsed earlier))).
Proof.
  split; [ | split ].
  - intros src [E | E]; subst src; reflexivity.
  - intros l F. unfold main. rewrite (loaded_complete l F).
    cbn [CITIES_DATA]. rewrite <- no_records_iff, <- update_nil_iff.
    destruct (Dict.update (flat_map group_records l) []) as [ | kv rest ];
      cbn [Dict.is_empty]; split; intros H;
      try reflexivity; discriminate.
  - intros earlier cd later F Hc Hne. unfold main.
    rewrite (loaded_until_broken earlier later cd F Hc).
    destruct (CITIES_DATA (loaded (Parsed earlier))) as [ | kv rest ] eqn:Ec;
      [ | reflexivity ].
    exfalso. apply Hne. apply update_nil_iff.
    rewrite (loaded_complete earlier F) in Ec. exact Ec.
Qed.

Lemma main_exits_without_cities_witness :
  main NoFile = Exit 1
  /\ main (Parsed [group "Germany" []]) = Exit 1
  /\ main (Parsed broken_second)
     = Serving (loaded (Parsed [group "Germany" [town "Berlin" (NInt 180)]])).
Proof.
  split; [ | split ].
  - exact (proj1 main_exits_without_cities NoFile (or_introl eq_refl)).
  - apply (proj1 (proj2 main_exits_without_cities) [group "Germany" []]).
    + repeat constructor; simpl; discriminate.
    + intros cd [E | []]. subst cd. reflexivity.
  - apply (proj2 (proj2 main_exits_without_cities)
             [group "Germany" [town "Berlin" (NInt 180)]]
             {| cj_country := None; cj_cities := Some [town "Paris" (NInt 150)] |}
             []).
    + repeat constructor; simpl; discriminate.
    + reflexivity.
    + discriminate.
Defined.

(** ** ScoreCity: the country filter and the choice of a record *)

Lemma filter_twice {A} (f1 f2 : A -> bool) (l : list A) :
  filter f2 (filter f1 l) = filter (fun x => f1 x && f2 x) l.
Proof.
  induction l as [ | x l IH ]; simpl; [ reflexivity | ].
  destruct (f1 x); simpl; [ | exact IH ].
  destruct (f2 x); rewrite IH; reflexivity.
Qed.

Lemma hd_error_filter_first {A} (f : A -> bool) (l : list A) (x : A) :
  hd_error (filter f l) = Some x ->
  exists before after,
    l = (before ++ x :: after)%list
    /\ f x = true
    /\ Forall (fun y => f y = false) before.
Proof.
  induction l as [ | a l IH ]; simpl; [ discriminate | ].
  destruct (f a) eqn:Ea.
  - simpl. intros H. inversion H; subst a.
    exists [], l. split; [ reflexivity | ]. split; [ exact Ea | constructor ].
  - intros H. destruct (IH H) as (before & after & E & Fx & Fb).
    exists (a :: before), after. subst l.
    split; [ reflexivity | ]. split; [ exact Fx | ].
    constructor; assumption.
Qed.

(** The test a record passes to be kept by [find_city_score]. *)
Lemma first_match_first lower (data : score_request) (g : globals)
    (city_data : city_record) :
  first_match lower data g = Some city_data ->
  exists before key after,
    CITIES_DATA g = (before ++ (key, city_data) :: after)%list
    /\ Forall (fun m =>
                 contains (lower (get_default (rq_city_name data) ""))
                          (lower (city_of (snd m))) = false
                 \/ (get_default (rq_country data) "" <> ""
                     /\ contains (lower (get_default (rq_country data) ""))
                                 (lower (country_of (snd m))) = false))
              before.
Proof.
  unfold first_match. intros H.
  destruct (hd_error _) as [[key d] | ] eqn:Eh; [ | discriminate ].
  simpl in H. inversion H; subst d.
  destruct (truthy (get_default (rq_country data) "")) eqn:Et.
  - rewrite filter_twice in Eh.
    destruct (hd_error_filter_first _ _ _ Eh) as (before & after & E & _ & Fb).
    exists before, key, after. split; [ exact E | ].
    revert Fb. apply Forall_impl. intros m Hm.
    apply andb_false_iff in Hm. destruct Hm as [Hm | Hm].
    + left. exact Hm.
    + right. split; [ apply truthy_true; exact Et | exact Hm ].
  - destruct (hd_error_filter_first _ _ _ Eh) as (before & after & E & _ & Fb).
    exists before, key, after. split; [ exact E | ].
    revert Fb. apply Forall_impl. intros m Hm. left. exact Hm.
Qed.

(** X17. First match wins: a 200 of [find_city_score] describes the first
    record, in the iteration order of [CITIES_DATA], whose city contains
    the name and whose country contains the country given: that record
    passes both tests, and every record before it fails one of the two. *)
Theorem answer_is_first_match :
  forall lower data g g' r,
    find_city_score lower data g = (Return (ScoreResult r, 200%nat), g') ->
    exists before key city_data after,
      CITIES_DATA g = (before ++ (key, city_data) :: after)%list
      /\ result_city r = city_of city_data
      /\ result_country r = country_of city_data
      /\ score_record city_data g = (Return r, g)
      /\ contains (lower (get_default (rq_city_name data) ""))
                  (lower (city_of city_data)) = true
      /\ (get_default (rq_country data) "" <> "" ->
          contains (lower (get_default (rq_country data) ""))
                   (lower (country_of city_data)) = true)
      /\ Forall (fun m =>
                   contains (lower (get_default (rq_city_name data) ""))
                            (lower (city_of (snd m))) = false
                   \/ (get_default (rq_country data) "" <> ""
                       /\ contains
                            (lower (get_default (rq_country data) ""))
                            (lower (country_of (snd m))) = false))
                before.
Proof.
  intros lower data g g' r H.
  destruct (find_city_score_result _ _ _ _ _ _ H) as (_ & _ & d & Hm & Hs).
  destruct (score_record_names _ _ _ _ Hs) as [Ec Eo].
  destruct (score_record_return _ _ _ _ Hs) as (s & _ & Eg & _). subst g'.
  destruct (first_match_first _ _ _ _ Hm) as (before & key & after & E & Fb).
  destruct (first_match_in _ _ _ _ Hm) as (_ & Hn & Hc).
  exists before, key, d, after. repeat split; auto.
Qed.

Lemma answer_is_first_match_witness :
  exists before key city_data after,
    CITIES_DATA (loaded two_cities)
    = (before ++ (key, city_data) :: after)%list
    /\ before = [("Quito, Land", record_of "Quito" "Land" quito)]
    /\ "Oslo" = city_of city_data
    /\ contains (ascii_lower "Oslo") (ascii_lower (city_of city_data)) = true.
Proof.
  destruct (answer_is_first_match ascii_lower (ask "Oslo")
              (loaded two_cities) _ _ eq_refl)
    as (before & key & d & after & E & Ec & _ & _ & Hn & _).
  exists before, key, d, after.
  split; [ exact E | ]. split; [ | split; [ exact Ec | exact Hn ] ].
  destruct before as [ | b [ | b' before ] ].
  - inversion E; subst. discriminate Ec.
  - inversion E; subst. reflexivity.
  - inversion E as [[Eb Eb' Er]]. destruct before; discriminate Er.
Defined.

(** X18. The second 404 of [find_city_score]: when some record's city
    contains the name but none of these has a country that contains the
    country given, the answer is a 404 whose message quotes the name and
    the country as they were sent, and the globals are untouched. *)
Theorem unknown_in_country :
  forall lower data g key city_data,
    let city_name := get_default (rq_city_name data) "" in
    let country := get_default (rq_country data) "" in
    city_name <> "" ->
    country <> "" ->
    In (key, city_data) (CITIES_DATA g) ->
    contains (lower city_name) (lower (city_of city_data)) = true ->
    (forall key' city_data',
        In (key', city_data') (CITIES_DATA g) ->
        contains (lower city_name) (lower (city_of city_data')) = true ->
        contains (lower country) (lower (country_of city_data')) = false) ->
    find_city_score lower data g
    = (Return
         (ScoreError
            {| error := "Ville '" ++ city_name
                        ++ "' non trouvée dans le pays '" ++ country ++ "'";
               error_city := Some city_name;
               error_country := Some country;
               error_found := Some false |}, 404%nat), g).
Proof.
  intros lower data g key d city_name country Hn Hc Hi Hm Hnone.
  subst city_name country.
  cbv [find_city_score search_city bind read ret].
  rewrite (proj2 (truthy_true _) Hn). cbn [negb]. cbv beta iota.
  destruct (CITIES_DATA g) as [ | kv rest ] eqn:Ec; [ contradiction | ].
  cbn [Dict.is_empty]. cbv beta iota. rewrite Ec.
  rewrite (proj2 (truthy_true _) Hc).
  destruct (filter _ (kv :: rest)) as [ | m ms ] eqn:Ef.
  { exfalso.
    assert (F : In (key, d)
                  (filter (fun m =>
                             contains
                               (lower (get_default (rq_city_name data) ""))
                               (lower (city_of (snd m)))) (kv :: rest)))
      by (apply filter_In; split; [ exact Hi | exact Hm ]).
    rewrite Ef in F. contradiction. }
  rewrite filter_none; [ reflexivity | ].
  intros [key' d'] Hx. rewrite <- Ef in Hx. apply filter_In in Hx.
  destruct Hx as [Hx1 Hx2]. simpl in *. apply (Hnone key' d' Hx1 Hx2).
Qed.

Lemma unknown_in_country_witness :
  find_city_score ascii_lower
    {| rq_city_name := Some "Berlin"; rq_country := Some "France" |}
    (loaded (Parsed two_towns))
  = (Return
       (ScoreError
          {| error := "Ville 'Berlin' non trouvée dans le pays 'France'";
             error_city := Some "Berlin";
             error_country := Some "France";
             error_found := Some false |}, 404%nat),
     loaded (Parsed two_towns)).
Proof.
  apply (unknown_in_country ascii_lower
           {| rq_city_name := Some "Berlin"; rq_country := Some "France" |}
           (loaded (Parsed two_towns)) "Berlin, Germany"
           (record_of "Berlin" "Germany" (town "Berlin" (NInt 180)))).
  - discriminate.
  - discriminate.
  - right. left. reflexivity.
  - reflexivity.
  - intros key' d' [E | [E | []]] _; inversion E; subst; reflexivity.
Defined.

(** ** Health *)

(** X19. [health_check] answers 200 "healthy" after any load, a failed
    one included, with the sizes of the two dictionaries: both 0 when the
    file was missing or not JSON, never a city without a country, and for
    a file with every key at most the number of city entries and of groups,
    exactly these numbers when no composite key and no country name is
    repeated. *)
Theorem health_after_load :
  forall src,
    exists h,
      health_check (loaded src) = (Return (h, 200%nat), loaded src)
      /\ status h = "healthy"
      /\ cities_loaded h = List.length (CITIES_DATA (loaded src))
      /\ health_countries h = List.length (COUNTRIES (loaded src))
      /\ ((0 < cities_loaded h)%nat -> (0 < health_countries h)%nat)
      /\ (src = NoFile \/ src = BadJSON ->
          cities_loaded h = 0%nat /\ health_countries h = 0%nat)
      /\ (forall countries_list,
             src = Parsed countries_list ->
             Forall complete_group countries_list ->
             (cities_loaded h
              <= List.length (flat_map group_records countries_list))%nat
             /\ (health_countries h <= List.length countries_list)%nat
             /\ (NoDup (dataset_keys countries_list) ->
                 cities_loaded h
                 = List.length (flat_map group_records countries_list))
             /\ (NoDup (map group_country countries_list) ->
                 health_countries h = List.length countries_list)).
Proof.
  intros src. eexists. split; [ reflexivity | ]. cbn [status cities_loaded
    health_countries]. split; [ reflexivity | ].
  split; [ reflexivity | ]. split; [ reflexivity | ].
  split; [ | split ].
  - intros H. destruct (loaded_keeps src) as [_ C].
    destruct (COUNTRIES (loaded src)) as [ | x xs ]; [ | simpl; lia ].
    exfalso. apply C; [ | reflexivity ].
    intros E. rewrite E in H. simpl in H. lia.
  - intros [E | E]; subst src; split; reflexivity.
  - intros l E F. subst src. split; [ | split; [ | split ] ].
    + rewrite (loaded_complete l F). cbn [CITIES_DATA].
      apply (length_update (flat_map group_records l) []).
    + rewrite (loaded_complete l F). cbn [COUNTRIES].
      pose proof (length_update (dataset_countries l) []) as L.
      unfold dataset_countries in L at 2. rewrite length_map in L.
      exact L.
    + intros K. rewrite (CITIES_DATA_loaded l F K). reflexivity.
    + intros N. rewrite (COUNTRIES_loaded l F N).
      unfold dataset_countries. apply length_map.
Qed.
